(** * Intelligent-Expense-Tracker: the merge / offset / split reconciliation

    A shallow embedding of the batch staging buffer of the [AddTransaction]
    component (handlers [handleUpdateBatchItem] ... [handleSaveAllBatch]) and
    of the store writer [addTransaction] of [App.tsx], with the properties
    the specification states about them.

    Conventions of the embedding.
    - A JS [number] amount is a [Z]: the model covers the integer-valued
      amounts.  On these the comparisons are exact, and [+] and [-] are
      exact as long as operands and result are safe integers
      ([safeInteger], up to [2^53 - 1] in absolute value).  [NaN] and
      fractional amounts are outside the model; a property that adds up
      several amounts names the safe range among its hypotheses.
    - A JS [string] is a [string]; template literals are concatenations.
    - An optional field ([mergeTargetId?: string], ...) is an [option];
      [undefined] is [None].  JS truthiness is written out where the source
      tests it ([truthyStr], [isSome]).
    - React state is passed explicitly: a handler maps the component state
      to the next one.  Calls of the [onSave] prop and of [onClose] are
      returned as data ([Out]).  [Date.now()] is an argument. *)

From Stdlib Require Import ZArith List String Bool Lia DecimalString.
From Stdlib Require DecimalPos DecimalZ Finite Permutation Sorted.
Import ListNotations.
Open Scope string_scope.
Open Scope Z_scope.

(** ** Data model ([types.ts], [BatchTransaction]) *)

Inductive TransactionType := expense | income.

Definition TransactionType_eqb (a b : TransactionType) : bool :=
  match a, b with
  | expense, expense | income, income => true
  | _, _ => false
  end.

Record Transaction := mkTransaction {
  id : string;
  amount : Z;
  type : TransactionType;
  categoryId : string;
  date : string;
  note : string
}.

(** [Omit<Transaction, 'id'>] *)
Record TransactionData := mkData {
  d_amount : Z;
  d_type : TransactionType;
  d_categoryId : string;
  d_date : string;
  d_note : string
}.

(** [number.toString()] on the integers. *)
Definition toString (z : Z) : string := NilZero.string_of_int (Z.to_int z).

(** JS truthiness of a string: only the empty string is falsy. *)
Definition truthyStr (s : string) : bool := negb (s =? "")%string.

(** Truthiness of an optional string ([undefined], [null] and [""] are falsy). *)
Definition truthyOptStr (o : option string) : bool :=
  match o with
  | Some s => truthyStr s
  | None => false
  end.

(** [Array.prototype.map] with the index argument. *)
Fixpoint mapi_from {A B : Type} (f : A -> nat -> B) (i : nat) (l : list A) : list B :=
  match l with
  | [] => []
  | x :: r => f x i :: mapi_from f (S i) r
  end.

Definition mapi {A B : Type} (f : A -> nat -> B) (l : list A) : list B :=
  mapi_from f 0%nat l.

(** ** The store writer [addTransaction] of [App.tsx] *)

Module App.

Definition offsetTypeStr (newTrans : TransactionData) : string :=
  match d_type newTrans with
  | income => "收入"
  | expense => "支出"
  end.

(** The body of the [transactions.map] callback. *)
Definition updateTarget (mergeTargetId : string) (newTrans : TransactionData)
    (t : Transaction) : Transaction :=
  let offsetAmount := d_amount newTrans in
  let notePrefix :=
    if truthyStr (d_note newTrans) then d_note newTrans ++ " " else "" in
  if (id t =? mergeTargetId)%string then
    let newAmount := amount t - offsetAmount in
    if newAmount <=? 0 then
      mkTransaction (id t) 0 (type t) (categoryId t) (date t)
        (note t ++ " (已全额抵扣: " ++ offsetTypeStr newTrans ++ " "
                ++ toString offsetAmount ++ ")")
    else
      mkTransaction (id t) newAmount (type t) (categoryId t) (date t)
        (note t ++ " (抵扣: " ++ offsetTypeStr newTrans ++ " "
                ++ toString offsetAmount ++ " " ++ notePrefix ++ ")")
  else t.

Definition remainderTrans (now : Z) (newTrans : TransactionData)
    (target : Transaction) : Transaction :=
  mkTransaction (toString now) (d_amount newTrans - amount target)
    (d_type newTrans) (d_categoryId newTrans) (d_date newTrans)
    (d_note newTrans ++ " (抵扣剩余)").

Definition positive (t : Transaction) : bool := amount t >? 0.

Definition withId (timestamp : Z) (t : TransactionData) (index : nat) : Transaction :=
  mkTransaction (toString (timestamp + Z.of_nat index))
    (d_amount t) (d_type t) (d_categoryId t) (d_date t) (d_note t).

(** [addTransaction(newTransactions, mergeTargetId)]: the result is the array
    handed to [setTransactions].  [transactions] is the store value captured
    by the closure and [now] is [Date.now()]. *)
Definition addTransaction (transactions : list Transaction) (now : Z)
    (newTransactions : list TransactionData) (mergeTargetId : option string)
    : list Transaction :=
  match mergeTargetId, newTransactions with
  | Some tid, [newTrans] =>
      if truthyStr tid then
        let offsetAmount := d_amount newTrans in
        let updatedTransactions := map (updateTarget tid newTrans) transactions in
        match find (fun t => (id t =? tid)%string) transactions with
        | Some target =>
            if offsetAmount >? amount target then
              filter positive updatedTransactions ++ [remainderTrans now newTrans target]
            else filter positive updatedTransactions
        | None => filter positive updatedTransactions
        end
      else transactions ++ mapi (withId now) newTransactions
  | _, _ => transactions ++ mapi (withId now) newTransactions
  end.

End App.

(** ** The batch staging buffer of the [AddTransaction] component *)

(** [interface BatchTransaction extends Omit<Transaction, 'id'>] *)
#[warnings="-register-all"]
Inductive BatchTransaction := mkBatch {
  tempId : string;
  b_amount : Z;
  b_type : TransactionType;
  b_categoryId : string;
  b_date : string;
  b_note : string;
  mergeTargetId : option string;
  mergedChildren : option (list BatchTransaction);
  originalAmount : option Z;
  originalNote : option string
}.

Inductive ToastType := success | error.

(** The part of the component state the batch handlers read and write. *)
Record State := mkState {
  batchList : list BatchTransaction;
  activeBatchTempId : option string;
  showBatchMergeModal : bool;
  batchMode : bool;
  toast : option (string * ToastType)
}.

(** One call [onSave(transactions, mergeTargetId)]. *)
Definition SaveCall : Type := list TransactionData * option string.

(** What a save handler does: the next state, the [onSave] calls in order,
    and whether [onClose] was called. *)
Record Out := mkOut {
  out_state : State;
  out_saves : list SaveCall;
  out_closed : bool
}.

Definition isSome {A : Type} (o : option A) : bool :=
  match o with Some _ => true | None => false end.

(** [item.mergedChildren || []] *)
Definition children (t : BatchTransaction) : list BatchTransaction :=
  match mergedChildren t with Some c => c | None => [] end.

(** [item.mergedChildren && item.mergedChildren.length > 0] *)
Definition hasChildren (t : BatchTransaction) : bool :=
  match mergedChildren t with
  | Some (_ :: _) => true
  | _ => false
  end.

Definition hasSnapshot (t : BatchTransaction) : bool :=
  isSome (originalAmount t) && isSome (originalNote t).

(** The object rest pattern [{tempId, mergeTargetId, mergedChildren,
    originalAmount, originalNote, ...rest}]. *)
Definition rest (t : BatchTransaction) : TransactionData :=
  mkData (b_amount t) (b_type t) (b_categoryId t) (b_date t) (b_note t).

Definition hasId (i : string) (t : BatchTransaction) : bool := (tempId t =? i)%string.
Definition notId (i : string) (t : BatchTransaction) : bool := negb (tempId t =? i)%string.

Definition setToast (m : string) (k : ToastType) (st : State) : State :=
  mkState (batchList st) (activeBatchTempId st) (showBatchMergeModal st)
    (batchMode st) (Some (m, k)).

Definition setBatchList (l : list BatchTransaction) (st : State) : State :=
  mkState l (activeBatchTempId st) (showBatchMergeModal st) (batchMode st) (toast st).

(** The fields the rendered inputs pass to [handleUpdateBatchItem]. *)
Inductive FieldUpdate :=
| SetAmount (v : Z)
| SetDate (v : string)
| SetType (v : TransactionType)
| SetCategoryId (v : string)
| SetNote (v : string).

Definition applyField (u : FieldUpdate) (t : BatchTransaction) : BatchTransaction :=
  match u with
  | SetAmount v =>
      mkBatch (tempId t) v (b_type t) (b_categoryId t) (b_date t) (b_note t)
        (mergeTargetId t) (mergedChildren t) (originalAmount t) (originalNote t)
  | SetDate v =>
      mkBatch (tempId t) (b_amount t) (b_type t) (b_categoryId t) v (b_note t)
        (mergeTargetId t) (mergedChildren t) (originalAmount t) (originalNote t)
  | SetType v =>
      mkBatch (tempId t) (b_amount t) v (b_categoryId t) (b_date t) (b_note t)
        None (mergedChildren t) (originalAmount t) (originalNote t)
  | SetCategoryId v =>
      mkBatch (tempId t) (b_amount t) (b_type t) v (b_date t) (b_note t)
        (mergeTargetId t) (mergedChildren t) (originalAmount t) (originalNote t)
  | SetNote v =>
      mkBatch (tempId t) (b_amount t) (b_type t) (b_categoryId t) (b_date t) v
        (mergeTargetId t) (mergedChildren t) (originalAmount t) (originalNote t)
  end.

Definition setMergeTargetId (m : option string) (t : BatchTransaction) : BatchTransaction :=
  mkBatch (tempId t) (b_amount t) (b_type t) (b_categoryId t) (b_date t) (b_note t)
    m (mergedChildren t) (originalAmount t) (originalNote t).

Definition handleUpdateBatchItem (i : string) (u : FieldUpdate) (st : State) : State :=
  setBatchList (map (fun item => if hasId i item then applyField u item else item)
                    (batchList st)) st.

Definition handleDeleteBatchItem (i : string) (st : State) : State :=
  let newList := filter (notId i) (batchList st) in
  mkState newList (activeBatchTempId st) (showBatchMergeModal st)
    (match newList with [] => false | _ => batchMode st end) (toast st).

(** The row appended by the "add a line" button; [cat0] is [categories[0].id]. *)
Definition manualRow (now : Z) (cat0 : string) (isoNow : string) : BatchTransaction :=
  mkBatch (toString now) 0 expense cat0 isoNow "" None None None None.

Definition handleAddRow (now : Z) (cat0 isoNow : string) (st : State) : State :=
  setBatchList (batchList st ++ [manualRow now cat0 isoNow]) st.

(** One element of [newBatch] in [processAIResults]: the id, the category
    found by [findCategoryId] and the ISO date are computed by the caller. *)
Record ParsedRow := mkParsed {
  p_tempId : string;
  p_amount : Z;
  p_categoryId : string;
  p_date : string;
  p_merchant : string
}.

Definition parsedRow (r : ParsedRow) : BatchTransaction :=
  mkBatch (p_tempId r) (p_amount r) expense (p_categoryId r) (p_date r)
    (p_merchant r) None None None None.

(** The batch branch of [processAIResults] (more than one result, or batch
    mode already on); the other branches leave the buffer alone. *)
Definition processAIResults (results : list ParsedRow) (st : State) : State :=
  match results with
  | [] => st
  | _ =>
      if (Nat.eqb (List.length results) 1 && negb (batchMode st))%bool then st
      else mkState (batchList st ++ map parsedRow results) (activeBatchTempId st)
             (showBatchMergeModal st) true (toast st)
  end.

Definition getBatchMergeCandidates (currentTempId : string) (st : State)
    : list BatchTransaction :=
  filter (notId currentTempId) (batchList st).

Definition handleOpenBatchMerge (i : string) (st : State) : State :=
  mkState (batchList st) (Some i) true (batchMode st) (toast st).

(** The [baseTarget] of the local merge: a target that has no
    [mergedChildren] yet gets an empty child list and the snapshot of its
    amount and note.  An array, even an empty one, is truthy. *)
Definition baseTargetOf (targetItem : BatchTransaction) : BatchTransaction :=
  match mergedChildren targetItem with
  | Some _ => targetItem
  | None =>
      mkBatch (tempId targetItem) (b_amount targetItem) (b_type targetItem)
        (b_categoryId targetItem) (b_date targetItem) (b_note targetItem)
        (mergeTargetId targetItem) (Some [])
        (Some (b_amount targetItem)) (Some (b_note targetItem))
  end.

Definition sourceTypeName (sourceItem : BatchTransaction) : string :=
  match b_type sourceItem with
  | income => "收入"
  | expense => "支出"
  end.

Definition offsetNote (sourceItem : BatchTransaction) : string :=
  " (抵扣" ++ sourceTypeName sourceItem ++ " " ++ toString (b_amount sourceItem)
    ++ ": " ++ b_note sourceItem ++ ")".

(** [updatedTarget] of the local merge: addition for the same type,
    subtraction floored at zero for the opposite type. *)
Definition updatedTargetOf (sourceItem targetItem : BatchTransaction) : BatchTransaction :=
  let baseTarget := baseTargetOf targetItem in
  if TransactionType_eqb (b_type sourceItem) (b_type baseTarget) then
    mkBatch (tempId baseTarget) (b_amount baseTarget + b_amount sourceItem)
      (b_type baseTarget) (b_categoryId baseTarget) (b_date baseTarget)
      (if truthyStr (b_note baseTarget)
       then b_note baseTarget ++ " + " ++ b_note sourceItem
       else b_note sourceItem)
      (mergeTargetId baseTarget) (Some (children baseTarget ++ [sourceItem])%list)
      (originalAmount baseTarget) (originalNote baseTarget)
  else
    let newTargetAmount := b_amount baseTarget - b_amount sourceItem in
    mkBatch (tempId baseTarget) (if newTargetAmount >? 0 then newTargetAmount else 0)
      (b_type baseTarget) (b_categoryId baseTarget) (b_date baseTarget)
      (b_note baseTarget ++ offsetNote sourceItem)
      (mergeTargetId baseTarget) (Some (children baseTarget ++ [sourceItem])%list)
      (originalAmount baseTarget) (originalNote baseTarget).

Definition mergeToast (sourceItem targetItem : BatchTransaction) : string :=
  if TransactionType_eqb (b_type sourceItem) (b_type (baseTargetOf targetItem))
  then "已合并(相加)" else "已抵扣(相减)".

(** The buffer after a local merge: the source is filtered out, then every
    row with the target's id is replaced by the updated target. *)
Definition mergedList (active targetId : string) (updatedTarget : BatchTransaction)
    (prev : list BatchTransaction) : list BatchTransaction :=
  map (fun t => if hasId targetId t then updatedTarget else t)
      (filter (notId active) prev).

Definition handleSelectBatchMergeTarget (targetId : string) (isUnsavedBatchItem : bool)
    (st : State) : State :=
  match activeBatchTempId st with
  | None => st
  | Some active =>
      if negb (truthyStr active) then st
      else
        let st1 :=
          if isUnsavedBatchItem then
            match find (hasId active) (batchList st),
                  find (hasId targetId) (batchList st) with
            | Some sourceItem, Some targetItem =>
                setBatchList
                  (mergedList active targetId (updatedTargetOf sourceItem targetItem)
                     (batchList st))
                  (setToast (mergeToast sourceItem targetItem) success st)
            | _, _ => st
            end
          else
            setBatchList
              (map (fun item => if hasId active item
                                then setMergeTargetId (Some targetId) item else item)
                   (batchList st)) st in
        mkState (batchList st1) None false (batchMode st1) (toast st1)
  end.

Definition handleClearBatchMerge (i : string) (st : State) : State :=
  setBatchList (map (fun item => if hasId i item then setMergeTargetId None item else item)
                    (batchList st)) st.

(** [Array.prototype.findIndex]; [None] stands for [-1]. *)
Fixpoint findIndex {A : Type} (p : A -> bool) (l : list A) : option nat :=
  match l with
  | [] => None
  | x :: r => if p x then Some 0%nat
              else match findIndex p r with
                   | Some k => Some (S k)
                   | None => None
                   end
  end.

Definition revertedParent (item : BatchTransaction) : BatchTransaction :=
  mkBatch (tempId item)
    (match originalAmount item with Some a => a | None => b_amount item end)
    (b_type item) (b_categoryId item) (b_date item)
    (match originalNote item with Some n => n | None => b_note item end)
    (mergeTargetId item) None None None.

(** The updater of [handleSplitBatchItem]: [newList[itemIndex] = revertedParent]
    followed by [newList.splice(itemIndex + 1, 0, ...children)]. *)
Definition splitList (i : string) (prev : list BatchTransaction) : list BatchTransaction :=
  match findIndex (hasId i) prev with
  | None => prev
  | Some itemIndex =>
      match nth_error prev itemIndex with
      | None => prev
      | Some item =>
          if hasChildren item then
            firstn itemIndex prev ++ revertedParent item :: children item
              ++ skipn (S itemIndex) prev
          else prev
      end
  end.

Definition handleSplitBatchItem (i : string) (st : State) : State :=
  setToast "已拆分/撤销合并" success (setBatchList (splitList i (batchList st)) st).

(** [!item.amount || item.amount <= 0] *)
Definition invalidAmount (z : Z) : bool := (z =? 0) || (z <=? 0).

Definition handleSaveSingleBatchItem (i : string) (st : State) : Out :=
  match find (hasId i) (batchList st) with
  | None => mkOut st [] false
  | Some item =>
      if invalidAmount (b_amount item) then
        mkOut (setToast "金额必须大于0" error st) [] false
      else
        mkOut (setToast "已保存" success (handleDeleteBatchItem i st))
          [([rest item], mergeTargetId item)] false
  end.

Definition validItem (t : BatchTransaction) : bool := b_amount t >? 0.
Definition hasMergeTarget (t : BatchTransaction) : bool := truthyOptStr (mergeTargetId t).

Definition handleSaveAllBatch (st : State) : Out :=
  let validItems := filter validItem (batchList st) in
  match validItems with
  | [] =>
      mkOut (match batchList st with
             | [] => st
             | _ => setToast "金额必须大于0" error st
             end) [] false
  | _ =>
      let regularItems := filter (fun t => negb (hasMergeTarget t)) validItems in
      let mergedItems := filter hasMergeTarget validItems in
      mkOut st
        ((match regularItems with
          | [] => []
          | _ => [(map rest regularItems, None)]
          end)
         ++ map (fun item => ([rest item], mergeTargetId item)) mergedItems)
        true
  end.

(** ** The store after a save handler

    The [onSave] calls of one handler all run in the closure of the same
    render of [App]: each call of [addTransaction] reads the same captured
    [transactions] and hands a complete array to [setTransactions], so the
    store of the next render is the array of the last call.  [clock k] is
    [Date.now()] during call number [k]. *)
Definition writes (transactions : list Transaction) (clock : nat -> Z)
    (calls : list SaveCall) : list (list Transaction) :=
  mapi (fun c k => App.addTransaction transactions (clock k) (fst c) (snd c)) calls.

Definition storeAfter (transactions : list Transaction) (clock : nat -> Z)
    (calls : list SaveCall) : list Transaction :=
  last (writes transactions clock calls) transactions.

(** ** Buffer operations and the states they reach *)

Inductive Op :=
| OpAddRow (now : Z) (cat0 isoNow : string)
| OpParsed (results : list ParsedRow)
| OpUpdate (i : string) (u : FieldUpdate)
| OpDelete (i : string)
| OpOpenMerge (i : string)
| OpSelectTarget (targetId : string) (isUnsavedBatchItem : bool)
| OpClearMerge (i : string)
| OpSplit (i : string)
| OpSaveSingle (i : string)
| OpSaveAll.

Definition run (o : Op) (st : State) : State :=
  match o with
  | OpAddRow now cat0 isoNow => handleAddRow now cat0 isoNow st
  | OpParsed results => processAIResults results st
  | OpUpdate i u => handleUpdateBatchItem i u st
  | OpDelete i => handleDeleteBatchItem i st
  | OpOpenMerge i => handleOpenBatchMerge i st
  | OpSelectTarget targetId b => handleSelectBatchMergeTarget targetId b st
  | OpClearMerge i => handleClearBatchMerge i st
  | OpSplit i => handleSplitBatchItem i st
  | OpSaveSingle i => out_state (handleSaveSingleBatchItem i st)
  | OpSaveAll => out_state (handleSaveAllBatch st)
  end.

Definition initialState : State := mkState [] None false false None.

Inductive reachable : State -> Prop :=
| reach_init : reachable initialState
| reach_step : forall o st, reachable st -> reachable (run o st).

(** A row is well formed when it is unmerged (no child list, no snapshot) or
    merged (a non-empty child list and both snapshot fields), and its
    children are well formed in turn. *)
#[warnings="-register-all"]
Inductive wf_item : BatchTransaction -> Prop :=
| wf_plain : forall t,
    mergedChildren t = None -> originalAmount t = None -> originalNote t = None ->
    wf_item t
| wf_merged : forall t c cs a n,
    mergedChildren t = Some (c :: cs) ->
    originalAmount t = Some a -> originalNote t = Some n ->
    Forall wf_item (c :: cs) ->
    wf_item t.

(** The equivalence of the data model, for one row. *)
Definition snapshot_equiv (t : BatchTransaction) : Prop :=
  hasChildren t = true <-> hasSnapshot t = true.

Definition wf_buffer (st : State) : Prop := Forall wf_item (batchList st).

(** ** Counting what a commit did to the store *)


(** The records of [new] whose id no record of [old] has. *)
Definition newRecords (old new : list Transaction) : list Transaction :=
  filter (fun t => negb (existsb (fun o => (id o =? id t)%string) old)) new.



(** The [onSave] calls of [handleSaveAllBatch] for the valid rows: at most
    one plain call with all rows that have no merge target, then one call
    for each row that has one, in buffer order. *)
Definition mergeCall (item : BatchTransaction) : SaveCall :=
  ([rest item], mergeTargetId item).

Definition saveAllCalls (validItems : list BatchTransaction) : list SaveCall :=
  ((match filter (fun t => negb (hasMergeTarget t)) validItems with
    | [] => []
    | _ => [(map rest (filter (fun t => negb (hasMergeTarget t)) validItems), None)]
    end)
   ++ map mergeCall (filter hasMergeTarget validItems))%list.

(** ** Sample data *)

Module Sample.

Definition salary : Transaction :=
  mkTransaction "t1" 100 income "7" "2024-01-01T00:00:00.000Z" "salary".

Definition dinner : TransactionData :=
  mkData 120 expense "1" "2024-01-02T00:00:00.000Z" "dinner".

Definition row (i : string) (a : Z) (k : TransactionType) (n : string)
    (m : option string) : BatchTransaction :=
  mkBatch i a k "1" "2024-01-02T00:00:00.000Z" n m None None None.

Definition buffer (l : list BatchTransaction) (active : option string) : State :=
  mkState l active (isSome active) true None.

Definition clock (k : nat) : Z := 1700000000000 + Z.of_nat k.

Definition lunch : BatchTransaction := row "a" 100 expense "lunch" None.
Definition taxi : BatchTransaction := row "b" 50 expense "taxi" None.
Definition refund : BatchTransaction := row "a" 80 income "refund" None.
Definition owed : BatchTransaction := row "a" 120 expense "dinner" (Some "t1").

(** One staged expense of 120 set to offset the stored income [salary]. *)
Definition offsetting : State := buffer [owed] None.

(** A row without amount next to a valid one. *)
Definition mixed : State :=
  buffer [row "a" 0 expense "" None; row "b" 5 expense "tea" None] None.

(** A buffer whose only row has no amount yet. *)
Definition blank : State := buffer [row "a" 0 expense "" None] None.

(** A single row, selected as the source of a merge. *)
Definition alone : State := buffer [lunch] (Some "a").

(** Two rows of the same kind, the first selected as the source. *)
Definition pair : State := buffer [lunch; taxi] (Some "a").

(** An income row selected as the source, and an expense row. *)
Definition opposite : State := buffer [refund; taxi] (Some "a").

Definition tea : BatchTransaction := row "c" 30 expense "tea" None.

(** Three rows, none selected. *)
Definition trio : State := buffer [lunch; taxi; tea] None.

(** The row [taxi] after [lunch] has been merged into it. *)
Definition taxiWithLunch : BatchTransaction := updatedTargetOf lunch taxi.

Definition rent : Transaction :=
  mkTransaction "t2" 900 expense "5" "2024-01-03T00:00:00.000Z" "rent".

Definition gift : Transaction :=
  mkTransaction "t3" 100 expense "3" "2024-01-03T18:30:00.000Z" "gift".

Definition snack : TransactionData :=
  mkData 30 expense "1" "2024-01-02T00:00:00.000Z" "snack".

(** Two parsed rows, the first merged into the second through the handlers. *)
Definition merged : State :=
  run (OpSelectTarget "b" true)
    (run (OpOpenMerge "a")
       (run (OpParsed [mkParsed "a" 100 "1" "2024-01-02T00:00:00.000Z" "lunch";
                       mkParsed "b" 50 "1" "2024-01-02T00:00:00.000Z" "taxi"])
          initialState)).

End Sample.

(** ** Reading a store *)

(** A stored transaction without its id. *)
Definition dataOf (t : Transaction) : TransactionData :=
  mkData (amount t) (type t) (categoryId t) (date t) (note t).

(** [Number.isSafeInteger] on the integers: up to [Number.MAX_SAFE_INTEGER]
    in absolute value.  Sums and differences of safe integers that are safe
    themselves are computed exactly by the JS [+] and [-]. *)
Definition safeInteger (z : Z) : Prop :=
  - 9007199254740991 <= z <= 9007199254740991.

(** An amount with the sign the lists show it with: [+] for an income, [-]
    for an expense. *)
Definition signed (k : TransactionType) (a : Z) : Z :=
  match k with
  | income => a
  | expense => - a
  end.

(** The net balance of a store: incomes minus expenses. *)
Definition balance (l : list Transaction) : Z :=
  fold_right (fun t acc => signed (type t) (amount t) + acc) 0 l.

(** ** Candidate lists and category lookup of [AddTransaction] *)

(** The sum of the amounts of the rows of a buffer. *)
Definition totalAmount (l : list BatchTransaction) : Z :=
  fold_right (fun t acc => b_amount t + acc) 0 l.

(** The net amount of a buffer: incomes minus expenses. *)
Definition netAmount (l : list BatchTransaction) : Z :=
  fold_right (fun t acc => signed (b_type t) (b_amount t) + acc) 0 l.

(** The operations that add no row to the buffer: all but the two that
    append rows and the split, which re-inserts the absorbed rows. *)
Definition addsNoRow (o : Op) : bool :=
  match o with
  | OpAddRow _ _ _ | OpParsed _ | OpSplit _ => false
  | _ => true
  end.

Record Category := mkCategory {
  c_id : string;
  c_name : string;
  c_icon : string;
  c_color : string;
  c_type : TransactionType
}.

(** [DEFAULT_CATEGORIES] of [constants.ts]. *)
Definition DEFAULT_CATEGORIES : list Category :=
  [mkCategory "1" "Dining" "Utensils" "#ef4444" expense;
   mkCategory "2" "Transport" "Bus" "#3b82f6" expense;
   mkCategory "3" "Shopping" "ShoppingBag" "#f59e0b" expense;
   mkCategory "4" "Entertainment" "Film" "#8b5cf6" expense;
   mkCategory "5" "Housing" "Home" "#10b981" expense;
   mkCategory "6" "Medical" "Stethoscope" "#ec4899" expense;
   mkCategory "7" "Salary" "Banknote" "#22c55e" income;
   mkCategory "8" "Other" "MoreHorizontal" "#9ca3af" expense].

(** [currentType === 'expense' ? 'income' : 'expense'] *)
Definition oppositeType (currentType : TransactionType) : TransactionType :=
  match currentType with
  | expense => income
  | income => expense
  end.

Section SavedCandidates.

(** [new Date(s).getTime()], for the date strings that parse. *)
Variable getTime : string -> Z.

(** [Array.prototype.sort] is stable; with the comparator
    [getTime(b.date) - getTime(a.date)] it is the stable sort by descending
    time, written here as an insertion from the right. *)
Fixpoint insertByDate (x : Transaction) (l : list Transaction) : list Transaction :=
  match l with
  | [] => [x]
  | y :: r =>
      if getTime (date y) >? getTime (date x) then y :: insertByDate x r
      else x :: y :: r
  end.

Definition sortByDateDesc (l : list Transaction) : list Transaction :=
  fold_right insertByDate [] l.

(** [a] is at least as recent as [b]. *)
Definition newer (a b : Transaction) : Prop := getTime (date a) >= getTime (date b).

Definition getSavedMergeCandidates (recentTransactions : list Transaction)
    (currentType : TransactionType) : list Transaction :=
  firstn 20
    (sortByDateDesc
       (filter (fun t => TransactionType_eqb (type t) (oppositeType currentType))
               recentTransactions)).

End SavedCandidates.

(** [s.includes(sub)] *)
Fixpoint includes (s sub : string) : bool :=
  String.prefix sub s
  || match s with
     | EmptyString => false
     | String _ r => includes r sub
     end.

Section CategoryLookup.

(** [String.prototype.toLowerCase] *)
Variable toLowerCase : string -> string.

(** [categories.find(c => c.type === type)?.id || ''] *)
Definition firstOfType (categories : list Category) (k : TransactionType) : string :=
  match find (fun c => TransactionType_eqb (c_type c) k) categories with
  | Some c => c_id c
  | None => ""
  end.

Definition nameMatches (name : string) (c : Category) : bool :=
  includes (toLowerCase (c_name c)) (toLowerCase name)
  || includes (toLowerCase name) (toLowerCase (c_name c)).

(** [findCategoryId(categories, name, type)]; an absent [name] is [None]. *)
Definition findCategoryId (categories : list Category) (name : option string)
    (k : TransactionType) : string :=
  match name with
  | None => firstOfType categories k
  | Some n =>
      if truthyStr n then
        match find (nameMatches n) categories with
        | Some matched => c_id matched
        | None => firstOfType categories k
        end
      else firstOfType categories k
  end.

End CategoryLookup.

(** ** Further handlers of [App.tsx] *)

Module AppData.

(** [Omit<Category, 'id'>] *)
Record CategoryData := mkCategoryData {
  cd_name : string;
  cd_icon : string;
  cd_color : string;
  cd_type : TransactionType
}.

Record Trip := mkTrip {
  trip_id : string;
  title : string;
  startDate : string;
  endDate : string;
  coverImage : option string;
  photos : list string;
  notes : option string
}.

(** The stored transactions and the id awaiting confirmation in the modal. *)
Record DeleteState := mkDeleteState {
  transactions : list Transaction;
  transactionToDelete : option string
}.

Definition requestDeleteTransaction (i : string) (s : DeleteState) : DeleteState :=
  mkDeleteState (transactions s) (Some i).

Definition confirmDelete (s : DeleteState) : DeleteState :=
  if truthyOptStr (transactionToDelete s) then
    match transactionToDelete s with
    | Some i =>
        mkDeleteState (filter (fun t => negb (id t =? i)%string) (transactions s)) None
    | None => s
    end
  else s.

Definition addCategory (now : Z) (c : CategoryData) (categories : list Category)
    : list Category :=
  (categories ++ [mkCategory (toString now) (cd_name c) (cd_icon c) (cd_color c)
                    (cd_type c)])%list.

(** [confirmed] is the answer to the [confirm] dialog. *)
Definition deleteCategory (confirmed : bool) (i : string) (categories : list Category)
    : list Category :=
  if confirmed then filter (fun c => negb (c_id c =? i)%string) categories
  else categories.

Definition addTrip (trip : Trip) (trips : list Trip) : list Trip :=
  (trips ++ [trip])%list.

Definition updateTrip (trip : Trip) (trips : list Trip) : list Trip :=
  map (fun t => if (trip_id t =? trip_id trip)%string then trip else t) trips.

Definition deleteTrip (confirmed : bool) (i : string) (trips : list Trip) : list Trip :=
  if confirmed then filter (fun t => negb (trip_id t =? i)%string) trips
  else trips.

End AppData.

(** ** The comparison groups ([CompareView]) *)

Module CompareView.

Definition COLORS : list string :=
  ["#10b981"; "#3b82f6"; "#f59e0b"; "#ec4899"; "#8b5cf6"].

Section Groups.

(** The JS [Date] objects, with [d.toDateString()] and [new Date(s)]. *)
Variable JsDate : Type.
Variable toDateString : JsDate -> string.
Variable parseDate : string -> JsDate.

Record CompareGroup := mkGroup {
  g_id : string;
  g_name : string;
  selectedDates : list JsDate;
  g_color : string
}.

Definition initialGroups : list CompareGroup :=
  [mkGroup "1" "组别 A" [] "#10b981"; mkGroup "2" "组别 B" [] "#3b82f6"].

(** [String.fromCharCode(65 + groups.length)] *)
Definition groupLetter (n : nat) : string :=
  String (Ascii.ascii_of_nat (65 + n)) EmptyString.

Definition handleAddGroup (now : Z) (groups : list CompareGroup) : list CompareGroup :=
  if (5 <=? List.length groups)%nat then groups
  else (groups ++ [mkGroup (toString now) ("组别 " ++ groupLetter (List.length groups)) []
                     (nth (List.length groups mod List.length COLORS) COLORS "")])%list.

Definition handleRemoveGroup (i : string) (groups : list CompareGroup)
    : list CompareGroup :=
  if (List.length groups <=? 1)%nat then groups
  else filter (fun g => negb (g_id g =? i)%string) groups.

(** The groups and [activeGroupId]. *)
Definition handleUpdateDates (dates : list JsDate)
    (s : list CompareGroup * option string) : list CompareGroup * option string :=
  let (groups, activeGroupId) := s in
  if truthyOptStr activeGroupId then
    match activeGroupId with
    | Some a =>
        (map (fun g => if (g_id g =? a)%string
                       then mkGroup (g_id g) (g_name g) dates (g_color g) else g)
             groups, None)
    | None => s
    end
  else s.

(** [t.type === 'expense' && dateStrings.has(new Date(t.date).toDateString())] *)
Definition counted (group : CompareGroup) (t : Transaction) : bool :=
  TransactionType_eqb (type t) expense
  && existsb (fun d => (toDateString d =? toDateString (parseDate (date t)))%string)
             (selectedDates group).

(** One row of [chartData].  The two averages, which are floating-point
    quotients of these fields, are not part of the model. *)
Record ChartRow := mkRow {
  r_name : string;
  r_amount : Z;
  r_count : nat;
  r_maxTransaction : Z;
  r_color : string;
  r_index : nat
}.

(** The body of the [forEach] over the transactions. *)
Definition tally (group : CompareGroup) (acc : Z * Z * nat) (t : Transaction)
    : Z * Z * nat :=
  let '(total, maxTransaction, count) := acc in
  if counted group t then
    (total + amount t,
     if amount t >? maxTransaction then amount t else maxTransaction,
     S count)
  else acc.

Definition chartRow (transactions : list Transaction) (group : CompareGroup)
    (index : nat) : ChartRow :=
  let '(total, maxTransaction, count) :=
    fold_left (tally group) transactions (0, 0, 0%nat) in
  mkRow (g_name group) total count maxTransaction (g_color group) index.

Definition chartData (groups : list CompareGroup) (transactions : list Transaction)
    : list ChartRow :=
  mapi (chartRow transactions) groups.

End Groups.

Arguments mkGroup {JsDate}.
Arguments g_id {JsDate}.
Arguments g_name {JsDate}.
Arguments selectedDates {JsDate}.
Arguments g_color {JsDate}.
Arguments handleAddGroup {JsDate}.
Arguments handleRemoveGroup {JsDate}.
Arguments handleUpdateDates {JsDate}.
Arguments counted {JsDate}.
Arguments tally {JsDate}.
Arguments chartRow {JsDate}.
Arguments chartData {JsDate}.

End CompareView.

(** ** Stand-ins for the library functions *)

Module Fixture.

(** A stand-in for [toLowerCase] on names that are lower case already. *)
Definition sameCase (s : string) : string := s.

(** Stand-ins for [new Date(s)] and [d.toDateString()] on ISO date strings:
    a date is kept as its ISO string and its day is the ten characters of
    the calendar date. *)
Definition isoDate (s : string) : string := s.
Definition isoDay (d : string) : string := substring 0 10 d.

End Fixture.

(** * Properties *)

(** ** Rows and identifiers *)

Lemma hasId_true (i : string) (t : BatchTransaction) :
  hasId i t = true <-> tempId t = i.
Proof. unfold hasId. apply String.eqb_eq. Qed.

Lemma hasId_false (i : string) (t : BatchTransaction) :
  hasId i t = false <-> tempId t <> i.
Proof. unfold hasId. apply String.eqb_neq. Qed.

Lemma notId_true (i : string) (t : BatchTransaction) :
  notId i t = true <-> tempId t <> i.
Proof.
  unfold notId. rewrite negb_true_iff. apply String.eqb_neq.
Qed.

Lemma truthyStr_true (s : string) : truthyStr s = true <-> s <> "".
Proof. unfold truthyStr. rewrite negb_true_iff. apply String.eqb_neq. Qed.

(** In a buffer without duplicate ids, [find] by a row's id returns that row. *)
Lemma find_hasId_In (l : list BatchTransaction) (x : BatchTransaction) :
  NoDup (map tempId l) -> In x l -> find (hasId (tempId x)) l = Some x.
Proof.
  induction l as [|a l IH]; simpl; intros ND HIn; [contradiction|].
  inversion ND as [|? ? Hnotin ND']; subst.
  destruct HIn as [->|HIn].
  - unfold hasId at 1. now rewrite String.eqb_refl.
  - destruct (hasId (tempId x) a) eqn:E.
    + apply hasId_true in E. exfalso. apply Hnotin. rewrite E.
      now apply in_map.
    + now apply IH.
Qed.

Lemma find_hasId_None (i : string) (l : list BatchTransaction) :
  (forall x, In x l -> tempId x <> i) -> find (hasId i) l = None.
Proof.
  induction l as [|a l IH]; simpl; intros H; [reflexivity|].
  destruct (hasId i a) eqn:E.
  - apply hasId_true in E. exfalso. apply (H a); auto.
  - apply IH. intros x Hx. apply H. now right.
Qed.

(** Replacing the rows that carry id [i] changes nothing where no row does. *)
Lemma replace_absent (i : string) (u : BatchTransaction) (l : list BatchTransaction) :
  (forall x, In x l -> tempId x <> i) ->
  map (fun t => if hasId i t then u else t) l = l.
Proof.
  induction l as [|a l IH]; simpl; intros H; [reflexivity|].
  assert (Ha : hasId i a = false) by (apply hasId_false, H; now left).
  rewrite Ha, IH; [reflexivity|]. intros x Hx. apply H. now right.
Qed.

Lemma NoDup_split_ids (l1 l2 : list BatchTransaction) (t : BatchTransaction) :
  NoDup (map tempId (l1 ++ t :: l2)) ->
  forall x, In x (l1 ++ l2) -> tempId x <> tempId t.
Proof.
  rewrite map_app. simpl. intros ND x Hx E.
  apply NoDup_remove_2 in ND. apply ND.
  rewrite <- map_app, <- E. now apply in_map.
Qed.

Lemma In_filter_notId (i : string) (l : list BatchTransaction) (x : BatchTransaction) :
  In x (filter (notId i) l) -> In x l /\ tempId x <> i.
Proof.
  intros H. apply filter_In in H. destruct H as [H1 H2].
  split; [assumption|]. now apply notId_true.
Qed.

(** Filtering out the id of a row of a duplicate-free buffer drops one row. *)
Lemma filter_notId_length (l : list BatchTransaction) (x : BatchTransaction) :
  NoDup (map tempId l) -> In x l ->
  List.length l = (List.length (filter (notId (tempId x)) l) + 1)%nat.
Proof.
  induction l as [|a l IH]; simpl; intros ND HIn; [contradiction|].
  inversion ND as [|? ? Hnotin ND']; subst.
  destruct HIn as [->|HIn].
  - assert (E : notId (tempId x) x = false).
    { unfold notId. now rewrite String.eqb_refl. }
    rewrite E. f_equal.
    assert (F : filter (notId (tempId x)) l = l); [|rewrite F; lia].
    apply forallb_filter_id, forallb_forall. intros y Hy.
    apply notId_true. intros Eq. apply Hnotin. rewrite <- Eq. now apply in_map.
  - assert (E : notId (tempId x) a = true).
    { apply notId_true. intros Eq. apply Hnotin. rewrite Eq. now apply in_map. }
    rewrite E. simpl. f_equal. rewrite (IH ND' HIn). reflexivity.
Qed.

(** ** The local merge, as a rewriting of the buffer *)

Section LocalMerge.

Variables (st : State) (S T : BatchTransaction) (l1 l2 : list BatchTransaction).
Hypothesis Hbuf : batchList st = (l1 ++ T :: l2)%list.
Hypothesis Hnodup : NoDup (map tempId (batchList st)).
Hypothesis HS : In S (batchList st).
Hypothesis Hdiff : tempId S <> tempId T.
Hypothesis Hid : tempId S <> "".
Hypothesis Hactive : activeBatchTempId st = Some (tempId S).

Lemma mergedList_shape (u : BatchTransaction) :
  mergedList (tempId S) (tempId T) u (batchList st)
  = (filter (notId (tempId S)) l1 ++ u :: filter (notId (tempId S)) l2)%list.
Proof.
  unfold mergedList. pose proof Hnodup as ND. rewrite Hbuf in ND |- *.
  pose proof (NoDup_split_ids _ _ _ ND) as Hother.
  rewrite filter_app. simpl.
  assert (HT : notId (tempId S) T = true) by (apply notId_true; congruence).
  rewrite HT, map_app. simpl.
  assert (HTT : hasId (tempId T) T = true) by now apply hasId_true.
  rewrite HTT.
  rewrite !replace_absent; [reflexivity| |].
  - intros x Hx. apply In_filter_notId in Hx. apply Hother, in_or_app. tauto.
  - intros x Hx. apply In_filter_notId in Hx. apply Hother, in_or_app. tauto.
Qed.

Lemma local_merge_shape :
  batchList (handleSelectBatchMergeTarget (tempId T) true st)
  = (filter (notId (tempId S)) l1 ++ updatedTargetOf S T
       :: filter (notId (tempId S)) l2)%list.
Proof.
  unfold handleSelectBatchMergeTarget. rewrite Hactive.
  assert (Ht : truthyStr (tempId S) = true) by now apply truthyStr_true.
  rewrite Ht. simpl negb. cbv iota.
  rewrite (find_hasId_In _ S Hnodup HS).
  assert (HT : In T (batchList st)) by (rewrite Hbuf; apply in_elt).
  rewrite (find_hasId_In _ T Hnodup HT).
  simpl. apply mergedList_shape.
Qed.

Lemma local_merge_source_gone : ~ In S (batchList (handleSelectBatchMergeTarget (tempId T) true st)).
Proof.
  rewrite local_merge_shape. intros H.
  apply in_app_or in H. destruct H as [H|[H|H]].
  - apply In_filter_notId in H. tauto.
  - apply Hdiff. rewrite <- H. unfold updatedTargetOf, baseTargetOf.
    destruct (mergedChildren T); simpl;
      destruct (TransactionType_eqb _ _); reflexivity.
  - apply In_filter_notId in H. tauto.
Qed.

Lemma local_merge_rows (x : BatchTransaction) :
  In x (batchList (handleSelectBatchMergeTarget (tempId T) true st)) -> x = updatedTargetOf S T \/ In x (batchList st).
Proof.
  rewrite local_merge_shape, Hbuf. intros H.
  apply in_app_or in H. destruct H as [H|[H|H]].
  - right. apply In_filter_notId in H. apply in_or_app. tauto.
  - left. now symmetry.
  - right. apply In_filter_notId in H. apply in_or_app. right. right. tauto.
Qed.

End LocalMerge.

(** ** The updated target *)

Lemma TransactionType_eqb_eq (a b : TransactionType) :
  TransactionType_eqb a b = true <-> a = b.
Proof. destruct a, b; simpl; split; congruence. Qed.

Lemma baseTargetOf_fields (t : BatchTransaction) :
  tempId (baseTargetOf t) = tempId t /\ b_amount (baseTargetOf t) = b_amount t
  /\ b_type (baseTargetOf t) = b_type t /\ b_note (baseTargetOf t) = b_note t
  /\ children (baseTargetOf t) = children t.
Proof.
  unfold baseTargetOf, children. destruct (mergedChildren t) eqn:E; simpl;
    rewrite ?E; repeat split; reflexivity.
Qed.

Lemma updatedTargetOf_tempId (s t : BatchTransaction) :
  tempId (updatedTargetOf s t) = tempId t.
Proof.
  unfold updatedTargetOf. destruct (TransactionType_eqb _ _); simpl;
    apply baseTargetOf_fields.
Qed.

Lemma updatedTargetOf_children (s t : BatchTransaction) :
  mergedChildren (updatedTargetOf s t) = Some (children t ++ [s])%list.
Proof.
  destruct (baseTargetOf_fields t) as (_ & _ & _ & _ & Hc).
  unfold updatedTargetOf. destruct (TransactionType_eqb _ _); simpl;
    now rewrite Hc.
Qed.

Lemma updatedTargetOf_same (s t : BatchTransaction) :
  b_type s = b_type t ->
  b_amount (updatedTargetOf s t) = b_amount t + b_amount s
  /\ b_note (updatedTargetOf s t)
     = if (b_note t =? "")%string then b_note s else b_note t ++ " + " ++ b_note s.
Proof.
  intros Hty. destruct (baseTargetOf_fields t) as (_ & Ha & Ht & Hn & _).
  unfold updatedTargetOf.
  assert (E : TransactionType_eqb (b_type s) (b_type (baseTargetOf t)) = true)
    by (apply TransactionType_eqb_eq; congruence).
  rewrite E. simpl. rewrite Ha, Hn. split; [reflexivity|].
  unfold truthyStr. now destruct (b_note t =? "")%string.
Qed.

Lemma updatedTargetOf_opposite (s t : BatchTransaction) :
  b_type s <> b_type t ->
  b_amount (updatedTargetOf s t) = Z.max (b_amount t - b_amount s) 0
  /\ b_note (updatedTargetOf s t) = b_note t ++ offsetNote s.
Proof.
  intros Hty. destruct (baseTargetOf_fields t) as (_ & Ha & Ht & Hn & _).
  unfold updatedTargetOf.
  assert (E : TransactionType_eqb (b_type s) (b_type (baseTargetOf t)) = false).
  { destruct (TransactionType_eqb _ _) eqn:E; [|reflexivity].
    apply TransactionType_eqb_eq in E. congruence. }
  rewrite E. simpl. rewrite Ha, Hn. split; [|reflexivity].
  destruct (b_amount t - b_amount s >? 0) eqn:G; lia.
Qed.

(** C1.  Merging a staged row [S] into a staged row [T] of the same kind
    replaces [T], at its place, by a row [T'] whose amount is
    [T.amount + S.amount], whose note is [T.note + " + " + S.note] (or
    [S.note] when [T]'s note is empty) and whose [mergedChildren] are those
    of [T] followed by [S]; [S] is no longer in the buffer and every other
    row is left as it was. *)
Theorem merge_same_kind :
  forall (st : State) (S T : BatchTransaction) (l1 l2 : list BatchTransaction),
    batchList st = (l1 ++ T :: l2)%list ->
    NoDup (map tempId (batchList st)) ->
    In S (batchList st) ->
    tempId S <> tempId T ->
    tempId S <> "" ->
    activeBatchTempId st = Some (tempId S) ->
    b_type S = b_type T ->
    exists T',
      batchList (handleSelectBatchMergeTarget (tempId T) true st)
        = (filter (notId (tempId S)) l1 ++ T' :: filter (notId (tempId S)) l2)%list
      /\ tempId T' = tempId T
      /\ b_amount T' = b_amount T + b_amount S
      /\ b_note T'
         = (if (b_note T =? "")%string then b_note S
            else b_note T ++ " + " ++ b_note S)
      /\ mergedChildren T' = Some (children T ++ [S])%list
      /\ ~ In S (batchList (handleSelectBatchMergeTarget (tempId T) true st)).
Proof.
  intros st S T l1 l2 Hbuf ND HS Hdiff Hid Hact Hty.
  exists (updatedTargetOf S T).
  destruct (updatedTargetOf_same S T Hty) as [Ha Hn].
  repeat split.
  - now apply local_merge_shape.
  - apply updatedTargetOf_tempId.
  - exact Ha.
  - exact Hn.
  - apply updatedTargetOf_children.
  - now apply (local_merge_source_gone st S T l1 l2).
Qed.

(** C2.  Offsetting a staged row [S] into a staged row [T] of the opposite
    kind replaces [T] by a row [T'] whose amount is [T.amount - S.amount]
    when [T.amount >= S.amount] and [0] when [T.amount < S.amount], never
    negative; [S] is appended to the children of [T'] and leaves the
    buffer.  No row is created for the excess: the buffer has one row less,
    and every row other than [T'] is a row of the old buffer. *)
Theorem offset_opposite_kind :
  forall (st : State) (S T : BatchTransaction) (l1 l2 : list BatchTransaction),
    batchList st = (l1 ++ T :: l2)%list ->
    NoDup (map tempId (batchList st)) ->
    In S (batchList st) ->
    tempId S <> tempId T ->
    tempId S <> "" ->
    activeBatchTempId st = Some (tempId S) ->
    b_type S <> b_type T ->
    exists T',
      batchList (handleSelectBatchMergeTarget (tempId T) true st)
        = (filter (notId (tempId S)) l1 ++ T' :: filter (notId (tempId S)) l2)%list
      /\ tempId T' = tempId T
      /\ (b_amount T >= b_amount S -> b_amount T' = b_amount T - b_amount S)
      /\ (b_amount T < b_amount S -> b_amount T' = 0)
      /\ 0 <= b_amount T'
      /\ mergedChildren T' = Some (children T ++ [S])%list
      /\ ~ In S (batchList (handleSelectBatchMergeTarget (tempId T) true st))
      /\ (forall x, In x (batchList (handleSelectBatchMergeTarget (tempId T) true st)) ->
                    x = T' \/ In x (batchList st))
      /\ List.length (batchList st)
         = (List.length (batchList (handleSelectBatchMergeTarget (tempId T) true st))
            + 1)%nat.
Proof.
  intros st S T l1 l2 Hbuf ND HS Hdiff Hid Hact Hty.
  exists (updatedTargetOf S T).
  destruct (updatedTargetOf_opposite S T Hty) as [Ha Hn].
  pose proof (local_merge_shape st S T l1 l2 Hbuf ND HS Hdiff Hid Hact) as Hshape.
  split; [exact Hshape|].
  split; [apply updatedTargetOf_tempId|].
  split; [lia|]. split; [lia|]. split; [lia|].
  split; [apply updatedTargetOf_children|].
  split; [now apply (local_merge_source_gone st S T l1 l2)|].
  split; [intros x; now apply (local_merge_rows st S T l1 l2)|].
  unfold handleSelectBatchMergeTarget. rewrite Hact.
  assert (Ht : truthyStr (tempId S) = true) by now apply truthyStr_true.
  rewrite Ht. simpl negb. cbv iota.
  rewrite (find_hasId_In _ S ND HS).
  assert (HT : In T (batchList st)) by (rewrite Hbuf; apply in_elt).
  rewrite (find_hasId_In _ T ND HT). simpl.
  unfold mergedList. rewrite length_map.
  now apply filter_notId_length.
Qed.

(** ** Split after one merge *)

Lemma findIndex_app_absent (i : string) (f1 f2 : list BatchTransaction)
    (u : BatchTransaction) :
  (forall x, In x f1 -> tempId x <> i) -> tempId u = i ->
  findIndex (hasId i) (f1 ++ u :: f2) = Some (List.length f1).
Proof.
  intros Habs Hu. induction f1 as [|a f1 IH]; simpl.
  - assert (E : hasId i u = true) by now apply hasId_true.
    now rewrite E.
  - assert (E : hasId i a = false) by (apply hasId_false, Habs; now left).
    rewrite E, IH; [reflexivity|]. intros x Hx. apply Habs. now right.
Qed.

Lemma nth_firstn_skipn_middle {A : Type} (f1 f2 : list A) (u : A) :
  nth_error (f1 ++ u :: f2) (List.length f1) = Some u
  /\ firstn (List.length f1) (f1 ++ u :: f2) = f1
  /\ skipn (S (List.length f1)) (f1 ++ u :: f2) = f2.
Proof.
  induction f1 as [|a f1 (IH1 & IH2 & IH3)]; simpl.
  - repeat split; reflexivity.
  - repeat split; [exact IH1 | now rewrite IH2 | exact IH3].
Qed.

Lemma splitList_at (i : string) (f1 f2 : list BatchTransaction)
    (u : BatchTransaction) :
  (forall x, In x f1 -> tempId x <> i) -> tempId u = i -> hasChildren u = true ->
  splitList i (f1 ++ u :: f2)
  = (f1 ++ revertedParent u :: children u ++ f2)%list.
Proof.
  intros Habs Hu Hc. unfold splitList.
  rewrite (findIndex_app_absent i f1 f2 u Habs Hu).
  destruct (nth_firstn_skipn_middle f1 f2 u) as (E1 & E2 & E3).
  rewrite E1, Hc, E2, E3. reflexivity.
Qed.

(** For an unmerged target, reverting the updated target gives the target
    back, field for field. *)
Lemma revertedParent_updatedTargetOf (s t : BatchTransaction) :
  mergedChildren t = None -> originalAmount t = None -> originalNote t = None ->
  revertedParent (updatedTargetOf s t) = t /\ children (updatedTargetOf s t) = [s].
Proof.
  intros Hc Ha Hn. destruct t; simpl in *; subst.
  unfold updatedTargetOf, baseTargetOf, revertedParent, children; simpl.
  destruct (TransactionType_eqb _ _); simpl; split; reflexivity.
Qed.

(** C4.  When a source [S] has been merged or offset into an unmerged
    target [T] (one merge), splitting the result gives back the row [T]
    itself -- amount, note, no children, no snapshot -- at its place, with
    [S] re-inserted as a row of its own right after it.  The snapshot, not
    the arithmetic, restores [T], so this holds whether or not the offset
    was floored at zero. *)
Theorem split_after_merge :
  forall (st : State) (S T : BatchTransaction) (l1 l2 : list BatchTransaction),
    batchList st = (l1 ++ T :: l2)%list ->
    NoDup (map tempId (batchList st)) ->
    In S (batchList st) ->
    tempId S <> tempId T ->
    tempId S <> "" ->
    activeBatchTempId st = Some (tempId S) ->
    mergedChildren T = None -> originalAmount T = None -> originalNote T = None ->
    batchList (handleSplitBatchItem (tempId T)
                 (handleSelectBatchMergeTarget (tempId T) true st))
    = (filter (notId (tempId S)) l1 ++ T :: S :: filter (notId (tempId S)) l2)%list.
Proof.
  intros st S T l1 l2 Hbuf ND HS Hdiff Hid Hact Hc Ha Hn.
  unfold handleSplitBatchItem. simpl.
  rewrite (local_merge_shape st S T l1 l2 Hbuf ND HS Hdiff Hid Hact).
  destruct (revertedParent_updatedTargetOf S T Hc Ha Hn) as [Hrev Hch].
  rewrite splitList_at.
  - now rewrite Hrev, Hch.
  - intros x Hx. apply In_filter_notId in Hx.
    rewrite Hbuf in ND. apply (NoDup_split_ids _ _ _ ND), in_or_app. tauto.
  - apply updatedTargetOf_tempId.
  - unfold hasChildren. rewrite updatedTargetOf_children.
    unfold children. rewrite Hc. reflexivity.
Qed.

(** ** The snapshot invariant *)

Lemma wf_item_same_history (t t' : BatchTransaction) :
  mergedChildren t' = mergedChildren t ->
  originalAmount t' = originalAmount t ->
  originalNote t' = originalNote t ->
  wf_item t -> wf_item t'.
Proof.
  intros Hc Ha Hn W. inversion W as [? Ec Ea En|? c cs a n Ec Ea En HF]; subst.
  - apply wf_plain; congruence.
  - apply (wf_merged t' c cs a n); congruence.
Qed.

Lemma wf_item_equiv (t : BatchTransaction) : wf_item t -> snapshot_equiv t.
Proof.
  intros W. unfold snapshot_equiv, hasChildren, hasSnapshot.
  inversion W as [? Ec Ea En|? c cs a n Ec Ea En HF]; subst;
    rewrite Ec, Ea, En; simpl; split; congruence.
Qed.

Lemma wf_item_no_children (t : BatchTransaction) :
  wf_item t -> hasChildren t = false ->
  mergedChildren t = None /\ originalAmount t = None /\ originalNote t = None.
Proof.
  intros W H. inversion W as [? Ec Ea En|? c cs a n Ec Ea En HF]; subst; [tauto|].
  unfold hasChildren in H. rewrite Ec in H. discriminate.
Qed.

Lemma wf_item_children (t : BatchTransaction) :
  wf_item t -> Forall wf_item (children t).
Proof.
  intros W. unfold children.
  inversion W as [? Ec Ea En|? c cs a n Ec Ea En HF]; subst; rewrite Ec; auto.
Qed.

Lemma wf_applyField (u : FieldUpdate) (t : BatchTransaction) :
  wf_item t -> wf_item (applyField u t).
Proof. apply wf_item_same_history; destruct u; reflexivity. Qed.

Lemma wf_setMergeTargetId (m : option string) (t : BatchTransaction) :
  wf_item t -> wf_item (setMergeTargetId m t).
Proof. apply wf_item_same_history; reflexivity. Qed.

Lemma wf_revertedParent (t : BatchTransaction) : wf_item (revertedParent t).
Proof. apply wf_plain; reflexivity. Qed.

Lemma wf_updatedTargetOf (s t : BatchTransaction) :
  wf_item s -> wf_item t -> wf_item (updatedTargetOf s t).
Proof.
  intros Ws Wt.
  assert (Hb : exists a n,
             originalAmount (baseTargetOf t) = Some a
             /\ originalNote (baseTargetOf t) = Some n).
  { unfold baseTargetOf.
    inversion Wt as [? Ec Ea En|? c cs a n Ec Ea En HF]; subst; rewrite Ec; simpl; eauto. }
  destruct Hb as (a & n & Ha & Hn).
  pose proof (wf_item_children t Wt) as HF.
  destruct (children t) as [|c cs] eqn:Hch.
  - apply (wf_merged _ s [] a n).
    + now rewrite updatedTargetOf_children, Hch.
    + unfold updatedTargetOf; destruct (TransactionType_eqb _ _); exact Ha.
    + unfold updatedTargetOf; destruct (TransactionType_eqb _ _); exact Hn.
    + auto.
  - apply (wf_merged _ c (cs ++ [s])%list a n).
    + now rewrite updatedTargetOf_children, Hch.
    + unfold updatedTargetOf; destruct (TransactionType_eqb _ _); exact Ha.
    + unfold updatedTargetOf; destruct (TransactionType_eqb _ _); exact Hn.
    + change (c :: cs ++ [s])%list with ((c :: cs) ++ [s])%list.
      apply Forall_app; auto.
Qed.

Lemma Forall_map_cond (p : BatchTransaction -> bool)
    (f : BatchTransaction -> BatchTransaction) (l : list BatchTransaction) :
  (forall x, wf_item x -> wf_item (f x)) ->
  Forall wf_item l ->
  Forall wf_item (map (fun x => if p x then f x else x) l).
Proof.
  intros Hf H. induction H as [|x l Hx Hl IH]; simpl; constructor; auto.
  destruct (p x); auto.
Qed.

Lemma Forall_filter_wf (p : BatchTransaction -> bool) (l : list BatchTransaction) :
  Forall wf_item l -> Forall wf_item (filter p l).
Proof.
  intros H. apply Forall_forall. intros x Hx. apply filter_In in Hx.
  rewrite Forall_forall in H. now apply H.
Qed.

Lemma find_wf (p : BatchTransaction -> bool) (l : list BatchTransaction)
    (x : BatchTransaction) :
  Forall wf_item l -> find p l = Some x -> wf_item x.
Proof.
  intros H E. apply find_some in E. rewrite Forall_forall in H. now apply H.
Qed.

Lemma wf_splitList (i : string) (l : list BatchTransaction) :
  Forall wf_item l -> Forall wf_item (splitList i l).
Proof.
  intros H. unfold splitList.
  destruct (findIndex (hasId i) l) as [k|]; [|assumption].
  destruct (nth_error l k) as [item|] eqn:E; [|assumption].
  destruct (hasChildren item); [|assumption].
  destruct (nth_error_split l k E) as (f1 & f2 & -> & <-).
  destruct (nth_firstn_skipn_middle f1 f2 item) as (_ & E2 & E3).
  rewrite E2, E3.
  apply Forall_app in H. destruct H as [H1 H2].
  inversion H2; subst.
  apply Forall_app. split; [assumption|].
  constructor; [apply wf_revertedParent|].
  apply Forall_app. split; [now apply wf_item_children | assumption].
Qed.

Lemma wf_select (targetId : string) (b : bool) (st : State) :
  wf_buffer st -> wf_buffer (handleSelectBatchMergeTarget targetId b st).
Proof.
  unfold wf_buffer, handleSelectBatchMergeTarget. intros H.
  destruct (activeBatchTempId st) as [active|]; [|assumption].
  destruct (negb (truthyStr active)); [assumption|]. simpl.
  destruct b.
  - destruct (find (hasId active) (batchList st)) as [s|] eqn:Es; [|assumption].
    destruct (find (hasId targetId) (batchList st)) as [t|] eqn:Et; [|assumption].
    simpl. unfold mergedList.
    apply (Forall_map_cond (hasId targetId) (fun _ => updatedTargetOf s t)).
    + intros _ _. apply wf_updatedTargetOf; eapply find_wf; eauto.
    + now apply Forall_filter_wf.
  - simpl. apply (Forall_map_cond (hasId active) (setMergeTargetId (Some targetId)));
      [intros x; apply wf_setMergeTargetId | assumption].
Qed.

Lemma saveAll_keeps_buffer (st : State) :
  batchList (out_state (handleSaveAllBatch st)) = batchList st.
Proof.
  unfold handleSaveAllBatch.
  destruct (filter validItem (batchList st)); simpl; [|reflexivity].
  destruct (batchList st) eqn:E; simpl; congruence.
Qed.

(** Every operation keeps every row of the buffer well formed. *)
Lemma wf_run (o : Op) (st : State) : wf_buffer st -> wf_buffer (run o st).
Proof.
  unfold wf_buffer. intros H. destruct o; simpl.
  - apply Forall_app. split; [assumption|].
    constructor; [apply wf_plain; reflexivity | constructor].
  - unfold processAIResults. destruct results as [|r rs]; [assumption|].
    destruct (_ && _)%bool; [assumption|]. simpl.
    apply Forall_app. split; [assumption|].
    apply Forall_forall. intros x Hx.
    change (parsedRow r :: map parsedRow rs) with (map parsedRow (r :: rs)) in Hx.
    apply in_map_iff in Hx. destruct Hx as (y & <- & _).
    apply wf_plain; reflexivity.
  - apply (Forall_map_cond (hasId i) (applyField u));
      [intros x; apply wf_applyField | assumption].
  - now apply Forall_filter_wf.
  - assumption.
  - now apply wf_select.
  - apply (Forall_map_cond (hasId i) (setMergeTargetId None));
      [intros x; apply wf_setMergeTargetId | assumption].
  - now apply wf_splitList.
  - unfold handleSaveSingleBatchItem.
    destruct (find (hasId i) (batchList st)); [|assumption].
    destruct (invalidAmount _); simpl; [assumption|].
    now apply Forall_filter_wf.
  - now rewrite saveAll_keeps_buffer.
Qed.

Lemma reachable_wf (st : State) : reachable st -> wf_buffer st.
Proof.
  induction 1 as [|o st R IH].
  - constructor.
  - now apply wf_run.
Qed.

(** C5.  In every state the buffer operations can reach, each row has a
    non-empty child list exactly when it carries the snapshot of its amount
    and note, and this is again so after any further operation (add, field
    edit, delete, merge or offset, clearing a target, split, save).  The
    first merge into an unmerged row records its amount and note as the
    snapshot, a later merge keeps the snapshot, and splitting a merged row
    puts the snapshot back as amount and note while clearing the children
    and both snapshot fields at once. *)
Theorem snapshot_invariant :
  forall st : State, reachable st ->
    (forall t, In t (batchList st) -> snapshot_equiv t)
    /\ (forall o t, In t (batchList (run o st)) -> snapshot_equiv t)
    /\ (forall s t, In t (batchList st) ->
          (hasChildren t = false ->
             originalAmount (updatedTargetOf s t) = Some (b_amount t)
             /\ originalNote (updatedTargetOf s t) = Some (b_note t))
          /\ (hasChildren t = true ->
             originalAmount (updatedTargetOf s t) = originalAmount t
             /\ originalNote (updatedTargetOf s t) = originalNote t))
    /\ (forall f1 u f2,
          batchList st = (f1 ++ u :: f2)%list ->
          (forall x, In x f1 -> tempId x <> tempId u) ->
          hasChildren u = true ->
          exists a n r,
            originalAmount u = Some a /\ originalNote u = Some n
            /\ batchList (handleSplitBatchItem (tempId u) st)
               = (f1 ++ r :: children u ++ f2)%list
            /\ b_amount r = a /\ b_note r = n /\ tempId r = tempId u
            /\ mergedChildren r = None
            /\ originalAmount r = None /\ originalNote r = None).
Proof.
  intros st R. pose proof (reachable_wf st R) as W.
  assert (Wall : forall st', wf_buffer st' ->
                 forall t, In t (batchList st') -> snapshot_equiv t).
  { intros st' W' t Ht. apply wf_item_equiv.
    unfold wf_buffer in W'. rewrite Forall_forall in W'. now apply W'. }
  split; [now apply Wall|].
  split; [intros o; apply Wall; now apply wf_run|].
  split.
  - intros s t Ht. unfold wf_buffer in W. rewrite Forall_forall in W.
    specialize (W t Ht). split; intros Hc.
    + destruct (wf_item_no_children t W Hc) as (Ec & _ & _).
      unfold updatedTargetOf, baseTargetOf. rewrite Ec.
      destruct (TransactionType_eqb _ _); simpl; split; reflexivity.
    + unfold hasChildren in Hc. unfold updatedTargetOf, baseTargetOf.
      destruct (mergedChildren t) as [c|]; [|discriminate].
      destruct (TransactionType_eqb _ _); simpl; split; reflexivity.
  - intros f1 u f2 Hbuf Habs Hc.
    assert (Wu : wf_item u).
    { unfold wf_buffer in W. rewrite Forall_forall in W. apply W.
      rewrite Hbuf. apply in_elt. }
    inversion Wu as [? Ec Ea En|? c cs a n Ec Ea En HF]; subst.
    + unfold hasChildren in Hc. rewrite Ec in Hc. discriminate.
    + exists a, n, (revertedParent u).
      split; [assumption|]. split; [assumption|].
      split.
      * unfold handleSplitBatchItem. simpl. rewrite Hbuf.
        now apply splitList_at.
      * unfold revertedParent. simpl. rewrite Ea, En. repeat split.
Qed.

(** ** The store writer *)

Lemma updateTarget_other (tid : string) (n : TransactionData) (l : list Transaction) :
  (forall t, In t l -> id t <> tid) -> map (App.updateTarget tid n) l = l.
Proof.
  induction l as [|a l IH]; simpl; intros H; [reflexivity|].
  rewrite IH by (intros t Ht; apply H; now right).
  unfold App.updateTarget.
  assert (E : (id a =? tid)%string = false) by (apply String.eqb_neq, H; now left).
  now rewrite E.
Qed.

Lemma updateTarget_id (tid : string) (n : TransactionData) (t : Transaction) :
  id (App.updateTarget tid n t) = id t.
Proof.
  unfold App.updateTarget. destruct (id t =? tid)%string; [|reflexivity].
  destruct (_ <=? 0); reflexivity.
Qed.

(** The value written by a merge commit, with the [find] result exposed. *)
Lemma addTransaction_merge (transactions : list Transaction) (now : Z)
    (n : TransactionData) (tid : string) :
  tid <> "" ->
  App.addTransaction transactions now [n] (Some tid)
  = (filter App.positive (map (App.updateTarget tid n) transactions)
     ++ match find (fun t => (id t =? tid)%string) transactions with
        | Some target =>
            if d_amount n >? amount target
            then [App.remainderTrans now n target] else []
        | None => []
        end)%list.
Proof.
  intros H. apply truthyStr_true in H. unfold App.addTransaction. rewrite H.
  destruct (find _ transactions) as [target|]; [|now rewrite app_nil_r].
  destruct (d_amount n >? amount target); [reflexivity|now rewrite app_nil_r].
Qed.

Lemma addTransaction_plain (transactions : list Transaction) (now : Z)
    (items : list TransactionData) :
  App.addTransaction transactions now items None
  = (transactions ++ mapi (App.withId now) items)%list.
Proof. reflexivity. Qed.

Lemma mapi_from_length {A B : Type} (f : A -> nat -> B) (i : nat) (l : list A) :
  List.length (mapi_from f i l) = List.length l.
Proof.
  revert i. induction l as [|x l IH]; simpl; intros i; [reflexivity|].
  now rewrite IH.
Qed.

Lemma mapi_from_In {A B : Type} (f : A -> nat -> B) (i : nat) (l : list A) (y : B) :
  In y (mapi_from f i l) -> exists x k, In x l /\ y = f x k.
Proof.
  revert i. induction l as [|x l IH]; simpl; intros i H; [contradiction|].
  destruct H as [<-|H].
  - exists x, i. auto.
  - destruct (IH _ H) as (x' & k & Hx & ->). exists x', k. auto.
Qed.

(** A merge commit leaves only positive amounts in the store. *)
Lemma addTransaction_merge_positive (transactions : list Transaction) (now : Z)
    (n : TransactionData) (tid : string) (t : Transaction) :
  tid <> "" ->
  In t (App.addTransaction transactions now [n] (Some tid)) -> amount t > 0.
Proof.
  intros H Ht. rewrite addTransaction_merge in Ht by assumption.
  apply in_app_or in Ht. destruct Ht as [Ht|Ht].
  - apply filter_In in Ht. destruct Ht as [_ Hp]. unfold App.positive in Hp. lia.
  - destruct (find _ transactions) as [target|]; [|contradiction].
    destruct (d_amount n >? amount target) eqn:G; [|contradiction].
    destruct Ht as [<-|[]]. simpl. lia.
Qed.

(** With unique ids, a merge commit whose amount exceeds the target's keeps
    exactly the positive records other than the target. *)
Lemma full_offset_kept (transactions : list Transaction) (n : TransactionData)
    (tid : string) (target : Transaction) :
  NoDup (map id transactions) ->
  find (fun t => (id t =? tid)%string) transactions = Some target ->
  d_amount n > amount target ->
  filter App.positive (map (App.updateTarget tid n) transactions)
  = filter (fun t => App.positive t && negb (id t =? tid)%string) transactions.
Proof.
  induction transactions as [|a l IH]; simpl; intros ND Hf Hgt; [reflexivity|].
  inversion ND as [|? ? Hnotin ND']; subst.
  destruct (id a =? tid)%string eqn:E.
  - injection Hf as ->. apply String.eqb_eq in E.
    assert (Hl : forall t, In t l -> id t <> tid).
    { intros t Ht Eq. apply Hnotin. rewrite E, <- Eq. now apply in_map. }
    rewrite (updateTarget_other tid n l Hl).
    assert (U : App.positive (App.updateTarget tid n target) = false).
    { unfold App.updateTarget. apply String.eqb_eq in E. rewrite E.
      assert (G : (amount target - d_amount n <=? 0) = true) by (apply Z.leb_le; lia).
      now rewrite G. }
    rewrite U, andb_false_r.
    apply filter_ext_in. intros t Ht.
    assert (F : (id t =? tid)%string = false) by (apply String.eqb_neq; auto).
    now rewrite F, andb_true_r.
  - assert (U : App.updateTarget tid n a = a).
    { unfold App.updateTarget. now rewrite E. }
    rewrite U, andb_true_r, (IH ND' Hf Hgt). reflexivity.
Qed.

(** C3, as the code has it.  When a single new transaction exceeds its
    persisted target, the target is rewritten to amount zero with the
    full-offset annotation and, having amount zero, is dropped by the
    filter on positive amounts: the store written consists of the stored
    records with a positive amount other than the target, followed by the
    remainder record, whose amount is [source.amount - target.amount] and
    whose kind, category and date are the source's. *)
Theorem save_exceeding_target :
  forall (transactions : list Transaction) (now : Z) (newTrans : TransactionData)
         (tid : string) (target : Transaction),
    NoDup (map id transactions) ->
    tid <> "" ->
    find (fun t => (id t =? tid)%string) transactions = Some target ->
    d_amount newTrans > amount target ->
    App.addTransaction transactions now [newTrans] (Some tid)
    = (filter (fun t => App.positive t && negb (id t =? tid)%string) transactions
       ++ [App.remainderTrans now newTrans target])%list
    /\ App.updateTarget tid newTrans target
       = mkTransaction (id target) 0 (type target) (categoryId target) (date target)
           (note target ++ " (已全额抵扣: " ++ App.offsetTypeStr newTrans ++ " "
              ++ toString (d_amount newTrans) ++ ")")
    /\ ~ In (App.updateTarget tid newTrans target)
            (App.addTransaction transactions now [newTrans] (Some tid))
    /\ App.remainderTrans now newTrans target
       = mkTransaction (toString now) (d_amount newTrans - amount target)
           (d_type newTrans) (d_categoryId newTrans) (d_date newTrans)
           (d_note newTrans ++ " (抵扣剩余)").
Proof.
  intros transactions now newTrans tid target ND Htid Hf Hgt.
  pose proof (find_some _ _ Hf) as [Hin Hid].
  assert (Hupd : App.updateTarget tid newTrans target
                 = mkTransaction (id target) 0 (type target) (categoryId target)
                     (date target)
                     (note target ++ " (已全额抵扣: " ++ App.offsetTypeStr newTrans
                        ++ " " ++ toString (d_amount newTrans) ++ ")")).
  { unfold App.updateTarget. rewrite Hid.
    assert (G : (amount target - d_amount newTrans <=? 0) = true)
      by (apply Z.leb_le; lia).
    now rewrite G. }
  split.
  - rewrite addTransaction_merge, Hf by assumption.
    assert (G : (d_amount newTrans >? amount target) = true) by lia.
    rewrite G. f_equal. now apply (full_offset_kept _ _ _ target).
  - split; [exact Hupd|]. split; [|reflexivity].
    intros H. apply (addTransaction_merge_positive _ _ _ _ _ Htid) in H.
    rewrite Hupd in H. simpl in H. lia.
Qed.

(** C3 as stated fails: after saving an expense of 120 against the stored
    income of 100, no record with the target's id and amount zero is in the
    store; only the remainder of 20 is. *)
Lemma full_offset_target_not_retained :
  ~ (exists t',
        In t' (App.addTransaction [Sample.salary] 1700000000000
                 [Sample.dinner] (Some "t1"))
        /\ id t' = "t1" /\ amount t' = 0).
Proof.
  intros (t' & Hin & Hid & _). vm_compute in Hin.
  destruct Hin as [<-|[]]. discriminate Hid.
Qed.

(** ** The calls of the save handlers *)

Lemma saveAll_calls (st : State) :
  out_saves (handleSaveAllBatch st) = saveAllCalls (filter validItem (batchList st)).
Proof.
  unfold handleSaveAllBatch, saveAllCalls.
  destruct (filter validItem (batchList st)); reflexivity.
Qed.


(** A call of save-all is the plain call or the call of one targeted row. *)
Lemma saveAllCalls_In (v : list BatchTransaction) (c : SaveCall) :
  In c (saveAllCalls v) ->
  (c = (map rest (filter (fun t => negb (hasMergeTarget t)) v), None))
  \/ (exists item, In item v /\ hasMergeTarget item = true /\ c = mergeCall item).
Proof.
  unfold saveAllCalls. intros H. apply in_app_or in H. destruct H as [H|H].
  - left. destruct (filter _ v); [contradiction|]. destruct H as [<-|[]]. reflexivity.
  - right. apply in_map_iff in H. destruct H as (item & <- & Hi).
    apply filter_In in Hi. exists item. tauto.
Qed.

Lemma saveAllCalls_merge_In (v : list BatchTransaction) (item : BatchTransaction) :
  In item v -> hasMergeTarget item = true -> In (mergeCall item) (saveAllCalls v).
Proof.
  intros Hi Hm. unfold saveAllCalls. apply in_or_app. right.
  apply in_map, filter_In. tauto.
Qed.







Lemma NoDup_ids_middle (l1 l2 : list Transaction) (target : Transaction) :
  NoDup (map id (l1 ++ target :: l2)) ->
  (forall t, In t l1 -> id t <> id target) /\ (forall t, In t l2 -> id t <> id target).
Proof.
  rewrite map_app. simpl. intros ND. apply NoDup_remove_2 in ND.
  split; intros t Ht E; apply ND; rewrite <- E; apply in_or_app;
    [left|right]; now apply in_map.
Qed.

Lemma find_id_middle (l1 l2 : list Transaction) (target : Transaction) :
  (forall t, In t l1 -> id t <> id target) ->
  find (fun t => (id t =? id target)%string) (l1 ++ target :: l2) = Some target.
Proof.
  intros H. induction l1 as [|a l1 IH]; simpl.
  - now rewrite String.eqb_refl.
  - assert (E : (id a =? id target)%string = false)
      by (apply String.eqb_neq, H; now left).
    rewrite E. apply IH. intros t Ht. apply H. now right.
Qed.






(** ** The remainder in the batch flow *)

(** C6, as the code has it.  Save-all commits a targeted row through the
    same [addTransaction] as the single-entry flow: the call for a row whose
    amount exceeds its stored target's writes a store that holds the
    remainder record, of amount [row.amount - target.amount]; when that row
    is the whole buffer this is the store after the save. *)
Theorem batch_offset_creates_remainder :
  forall (st : State) (transactions : list Transaction) (clock : nat -> Z)
         (item : BatchTransaction) (tid : string) (target : Transaction),
    In item (batchList st) ->
    b_amount item > 0 ->
    mergeTargetId item = Some tid -> tid <> "" ->
    find (fun t => (id t =? tid)%string) transactions = Some target ->
    b_amount item > amount target ->
    In ([rest item], Some tid) (out_saves (handleSaveAllBatch st))
    /\ (forall now,
          In (App.remainderTrans now (rest item) target)
             (App.addTransaction transactions now [rest item] (Some tid))
          /\ amount (App.remainderTrans now (rest item) target)
             = b_amount item - amount target)
    /\ (batchList st = [item] ->
        In (App.remainderTrans (clock 0%nat) (rest item) target)
           (storeAfter transactions clock (out_saves (handleSaveAllBatch st)))).
Proof.
  intros st transactions clock item tid target Hin Hpos Hm Htid Hf Hgt.
  assert (Hmt : hasMergeTarget item = true).
  { unfold hasMergeTarget. rewrite Hm. simpl. now apply truthyStr_true. }
  assert (Hrem : forall now,
             In (App.remainderTrans now (rest item) target)
                (App.addTransaction transactions now [rest item] (Some tid))).
  { intros now. rewrite addTransaction_merge, Hf by assumption. simpl.
    assert (G : (b_amount item >? amount target) = true) by lia.
    rewrite G. apply in_or_app. right. now left. }
  split; [|split].
  - rewrite saveAll_calls.
    replace ([rest item], Some tid) with (mergeCall item)
      by (unfold mergeCall; now rewrite Hm).
    apply saveAllCalls_merge_In; [|assumption].
    apply filter_In. split; [assumption|]. unfold validItem. lia.
  - intros now. split; [apply Hrem | reflexivity].
  - intros Hb. rewrite saveAll_calls, Hb.
    assert (V : validItem item = true) by (unfold validItem; lia).
    cbn [filter]. rewrite V. unfold saveAllCalls. cbn [filter].
    rewrite Hmt. cbn [negb map app].
    unfold storeAfter, writes, mapi, mergeCall. cbn [mapi_from last fst snd].
    rewrite Hm. apply Hrem.
Qed.

(** C6 as stated fails: saving the buffer that holds one expense of 120
    set against the stored income of 100 writes a store with a record no
    stored record shares its id with, the remainder of 20. *)
Lemma batch_flow_remainder_created :
  ~ (newRecords [Sample.salary]
       (storeAfter [Sample.salary] Sample.clock
          (out_saves (handleSaveAllBatch Sample.offsetting))) = []).
Proof. vm_compute. discriminate. Qed.

(** ** What a save lets into the store *)

Lemma last_cases {A : Type} (l : list A) (d : A) :
  (l = [] /\ last l d = d) \/ In (last l d) l.
Proof.
  induction l as [|a l IH]; [left; auto|]. right.
  destruct l as [|b l]; [now left|].
  destruct IH as [[E _]|IH]; [discriminate|].
  right. exact IH.
Qed.

(** The store after a handler is the old one or the value of one call. *)
Lemma storeAfter_cases (transactions : list Transaction) (clock : nat -> Z)
    (calls : list SaveCall) :
  storeAfter transactions clock calls = transactions
  \/ exists c k, In c calls
       /\ storeAfter transactions clock calls
          = App.addTransaction transactions (clock k) (fst c) (snd c).
Proof.
  unfold storeAfter.
  destruct (last_cases (writes transactions clock calls) transactions) as [[_ E]|H].
  - now left.
  - right. unfold writes, mapi in H. apply mapi_from_In in H.
    destruct H as (c & k & Hc & E). exists c, k. auto.
Qed.

(** A commit of positive amounts adds no record with amount [<= 0]. *)
Lemma addTransaction_nonpositive_old (transactions : list Transaction) (now : Z)
    (items : list TransactionData) (tgt : option string) (x : Transaction) :
  (forall d, In d items -> d_amount d > 0) ->
  In x (App.addTransaction transactions now items tgt) ->
  amount x <= 0 -> In x transactions.
Proof.
  intros Hpos Hin Hle.
  assert (Hplain : In x (transactions ++ mapi (App.withId now) items)%list ->
                   In x transactions).
  { intros H. apply in_app_or in H. destruct H as [H|H]; [assumption|].
    unfold mapi in H. apply mapi_from_In in H. destruct H as (d & k & Hd & ->).
    specialize (Hpos d Hd). simpl in Hle. lia. }
  unfold App.addTransaction in Hin.
  destruct tgt as [tid|]; [|destruct items; now apply Hplain].
  destruct items as [|n [|n' r]]; try now apply Hplain.
  destruct (truthyStr tid) eqn:T; [|now apply Hplain].
  apply truthyStr_true in T.
  assert (Hx : amount x > 0); [|lia].
  apply (addTransaction_merge_positive transactions now n tid x T).
  unfold App.addTransaction. apply truthyStr_true in T. now rewrite T.
Qed.

Lemma saveAll_items_positive (st : State) (c : SaveCall) (d : TransactionData) :
  In c (out_saves (handleSaveAllBatch st)) -> In d (fst c) -> d_amount d > 0.
Proof.
  rewrite saveAll_calls. intros Hc Hd.
  assert (V : forall t, In t (filter validItem (batchList st)) -> b_amount t > 0).
  { intros t Ht. apply filter_In in Ht. destruct Ht as [_ Ht].
    unfold validItem in Ht. lia. }
  apply saveAllCalls_In in Hc. destruct Hc as [->|(item & Hi & _ & ->)].
  - simpl in Hd. apply in_map_iff in Hd. destruct Hd as (t & <- & Ht).
    apply filter_In in Ht. simpl. apply V. tauto.
  - destruct Hd as [<-|[]]. simpl. now apply V.
Qed.

Lemma invalidAmount_false (z : Z) : invalidAmount z = false <-> z > 0.
Proof. unfold invalidAmount. rewrite orb_false_iff. lia. Qed.

Lemma saveSingle_items_positive (i : string) (st : State) (c : SaveCall)
    (d : TransactionData) :
  In c (out_saves (handleSaveSingleBatchItem i st)) -> In d (fst c) -> d_amount d > 0.
Proof.
  unfold handleSaveSingleBatchItem.
  destruct (find (hasId i) (batchList st)) as [item|]; [|intros []].
  destruct (invalidAmount (b_amount item)) eqn:E; [intros []|].
  apply invalidAmount_false in E.
  intros [<-|[]] [<-|[]]. exact E.
Qed.

(** C9, as the code has it.  Neither save path hands a row with amount
    [<= 0] to the store, so every record with amount [<= 0] in the store
    after a save was in it before.  Save-all reports the validation failure
    when the buffer is non-empty and no row has a positive amount, and then
    saves nothing; when some row is valid, the rows with amount [<= 0] are
    dropped without a report.  Saving a single row reports the failure when
    that row's amount is [<= 0]. *)
Theorem save_discards_nonpositive :
  forall (st : State) (transactions : list Transaction) (clock : nat -> Z),
    (forall c d, In c (out_saves (handleSaveAllBatch st)) -> In d (fst c) ->
                 d_amount d > 0)
    /\ (forall i c d, In c (out_saves (handleSaveSingleBatchItem i st)) ->
                     In d (fst c) -> d_amount d > 0)
    /\ (forall x, In x (storeAfter transactions clock (out_saves (handleSaveAllBatch st))) ->
                 amount x <= 0 -> In x transactions)
    /\ (forall i x,
          In x (storeAfter transactions clock (out_saves (handleSaveSingleBatchItem i st))) ->
          amount x <= 0 -> In x transactions)
    /\ (batchList st <> [] -> (forall t, In t (batchList st) -> b_amount t <= 0) ->
        handleSaveAllBatch st = mkOut (setToast "金额必须大于0" error st) [] false)
    /\ ((exists t, In t (batchList st) /\ b_amount t > 0) ->
        out_state (handleSaveAllBatch st) = st
        /\ out_closed (handleSaveAllBatch st) = true)
    /\ (batchList st = [] -> handleSaveAllBatch st = mkOut st [] false)
    /\ (forall i item, find (hasId i) (batchList st) = Some item ->
          b_amount item <= 0 ->
          handleSaveSingleBatchItem i st
          = mkOut (setToast "金额必须大于0" error st) [] false).
Proof.
  intros st transactions clock.
  split; [apply saveAll_items_positive|].
  split; [intros i; apply (saveSingle_items_positive i st)|].
  split; [|split; [|split; [|split; [|split]]]].
  - intros x Hx Hle.
    destruct (storeAfter_cases transactions clock (out_saves (handleSaveAllBatch st)))
      as [E|(c & k & Hc & E)]; rewrite E in Hx; [assumption|].
    eapply addTransaction_nonpositive_old; eauto.
    intros d. now apply (saveAll_items_positive st c).
  - intros i x Hx Hle.
    destruct (storeAfter_cases transactions clock
                (out_saves (handleSaveSingleBatchItem i st)))
      as [E|(c & k & Hc & E)]; rewrite E in Hx; [assumption|].
    eapply addTransaction_nonpositive_old; eauto.
    intros d. now apply (saveSingle_items_positive i st c).
  - intros Hne Hall. unfold handleSaveAllBatch.
    assert (F : filter validItem (batchList st) = []).
    { destruct (filter validItem (batchList st)) as [|a r] eqn:E; [reflexivity|].
      assert (Ha : In a (filter validItem (batchList st))) by (rewrite E; now left).
      apply filter_In in Ha. destruct Ha as [Ha Hv].
      specialize (Hall a Ha). unfold validItem in Hv. lia. }
    rewrite F. destruct (batchList st); [contradiction|reflexivity].
  - intros (t & Ht & Hpos). unfold handleSaveAllBatch.
    destruct (filter validItem (batchList st)) as [|a r] eqn:E; [|split; reflexivity].
    assert (Hin : In t (filter validItem (batchList st))).
    { apply filter_In. split; [assumption|]. unfold validItem. lia. }
    rewrite E in Hin. contradiction.
  - intros E. unfold handleSaveAllBatch. rewrite E. reflexivity.
  - intros i item Hf Hle. unfold handleSaveSingleBatchItem. rewrite Hf.
    destruct (invalidAmount (b_amount item)) eqn:E; [reflexivity|].
    apply invalidAmount_false in E. lia.
Qed.

(** C9 as stated fails in its last part: with a row of amount 0 next to a
    valid row the discard set and the buffer are non-empty, and save-all
    reports no validation failure. *)
Lemma discard_without_report :
  ~ ((exists t, In t (batchList Sample.mixed) /\ b_amount t <= 0) ->
     batchList Sample.mixed <> [] ->
     exists m, toast (out_state (handleSaveAllBatch Sample.mixed)) = Some (m, error)).
Proof.
  intros H.
  destruct H as (m & Hm).
  - exists (Sample.row "a" 0 expense "" None). split; [now left|reflexivity].
  - discriminate.
  - discriminate Hm.
Qed.

(** ** Selecting a target that is not a candidate *)

(** C8, as the code has it.  Selecting a staged target whose id no row of
    the buffer carries changes no row and reports nothing; the selection is
    dropped in silence.  Nothing in the handler rejects the source itself
    as a target: what excludes it is the candidate list, which never holds
    the row it is computed for. *)
Theorem unknown_staged_target_ignored :
  forall (st : State) (targetId : string),
    (forall x, In x (batchList st) -> tempId x <> targetId) ->
    batchList (handleSelectBatchMergeTarget targetId true st) = batchList st
    /\ toast (handleSelectBatchMergeTarget targetId true st) = toast st
    /\ (forall i x, In x (getBatchMergeCandidates i st) ->
                   tempId x <> i /\ In x (batchList st)).
Proof.
  intros st targetId Habs.
  assert (Hshape : batchList (handleSelectBatchMergeTarget targetId true st) = batchList st
                   /\ toast (handleSelectBatchMergeTarget targetId true st) = toast st).
  { unfold handleSelectBatchMergeTarget.
    destruct (activeBatchTempId st) as [active|]; [|split; reflexivity].
    destruct (negb (truthyStr active)); [split; reflexivity|].
    rewrite (find_hasId_None targetId (batchList st) Habs).
    destruct (find (hasId active) (batchList st)); split; reflexivity. }
  destruct Hshape as [H1 H2]. split; [exact H1|]. split; [exact H2|].
  intros i x Hx. unfold getBatchMergeCandidates in Hx.
  apply In_filter_notId in Hx. tauto.
Qed.

(** C8 as stated fails: selecting the source row itself as the staged
    target does not leave the buffer unchanged, the row is removed; and a
    saved target id that no stored transaction has is recorded on the row. *)
Lemma self_merge_changes_buffer :
  ~ (batchList (handleSelectBatchMergeTarget "a" true Sample.alone)
     = batchList Sample.alone)
  /\ ~ (batchList (handleSelectBatchMergeTarget "nowhere" false Sample.alone)
        = batchList Sample.alone).
Proof. split; vm_compute; discriminate. Qed.

(** * The scenarios of the specification, run on the model *)

Example scenario_merge :
  batchList (handleSelectBatchMergeTarget "b" true Sample.pair)
  = [mkBatch "b" 150 expense "1" "2024-01-02T00:00:00.000Z" "taxi + lunch" None
       (Some [Sample.lunch]) (Some 50) (Some "taxi")].
Proof. reflexivity. Qed.

Example scenario_offset_floored :
  batchList (handleSelectBatchMergeTarget "b" true Sample.opposite)
  = [mkBatch "b" 0 expense "1" "2024-01-02T00:00:00.000Z"
       "taxi (抵扣收入 80: refund)" None
       (Some [Sample.refund]) (Some 50) (Some "taxi")].
Proof. reflexivity. Qed.

Example scenario_split :
  batchList (handleSplitBatchItem "b"
               (handleSelectBatchMergeTarget "b" true Sample.pair))
  = [Sample.taxi; Sample.lunch].
Proof. reflexivity. Qed.

Example scenario_single_entry_remainder :
  App.addTransaction [Sample.salary] 1700000000000 [Sample.dinner] (Some "t1")
  = [mkTransaction "1700000000000" 20 expense "1" "2024-01-02T00:00:00.000Z"
       "dinner (抵扣剩余)"].
Proof. reflexivity. Qed.

Example scenario_partial_offset :
  App.addTransaction [Sample.salary] 1700000000000
    [mkData 30 expense "1" "2024-01-02T00:00:00.000Z" "dinner"] (Some "t1")
  = [mkTransaction "t1" 70 income "7" "2024-01-01T00:00:00.000Z"
       "salary (抵扣: 支出 30 dinner )"].
Proof. reflexivity. Qed.

(** The calls of one save-all all read the store of the same render: with a
    plain row and a targeted row, the store after the save is the value of
    the last call. *)
Example scenario_save_all_last_write :
  storeAfter [Sample.salary] Sample.clock
    (out_saves (handleSaveAllBatch
                  (Sample.buffer [Sample.taxi; Sample.row "c" 30 expense "tea" (Some "t1")]
                     None)))
  = [mkTransaction "t1" 70 income "7" "2024-01-01T00:00:00.000Z"
       "salary (抵扣: 支出 30 tea )"].
Proof. reflexivity. Qed.

(** * The theorems at concrete inputs *)

Lemma sample_pair_nodup : NoDup (map tempId (batchList Sample.pair)).
Proof.
  simpl. constructor.
  - simpl. intros [H|[]]. discriminate H.
  - constructor; [intros [] | constructor].
Defined.

Lemma sample_opposite_nodup : NoDup (map tempId (batchList Sample.opposite)).
Proof.
  simpl. constructor.
  - simpl. intros [H|[]]. discriminate H.
  - constructor; [intros [] | constructor].
Defined.

Lemma merge_same_kind_witness :
  exists T',
    batchList (handleSelectBatchMergeTarget (tempId Sample.taxi) true Sample.pair)
    = (filter (notId (tempId Sample.lunch)) [Sample.lunch]
       ++ T' :: filter (notId (tempId Sample.lunch)) [])%list
    /\ tempId T' = tempId Sample.taxi
    /\ b_amount T' = b_amount Sample.taxi + b_amount Sample.lunch
    /\ b_note T'
       = (if (b_note Sample.taxi =? "")%string then b_note Sample.lunch
          else b_note Sample.taxi ++ " + " ++ b_note Sample.lunch)
    /\ mergedChildren T' = Some (children Sample.taxi ++ [Sample.lunch])%list
    /\ ~ In Sample.lunch
           (batchList (handleSelectBatchMergeTarget (tempId Sample.taxi) true Sample.pair)).
Proof.
  apply (merge_same_kind Sample.pair Sample.lunch Sample.taxi [Sample.lunch] []).
  - reflexivity.
  - exact sample_pair_nodup.
  - simpl. now left.
  - simpl. discriminate.
  - simpl. discriminate.
  - reflexivity.
  - reflexivity.
Defined.

Lemma offset_opposite_kind_witness :
  exists T',
    batchList (handleSelectBatchMergeTarget (tempId Sample.taxi) true Sample.opposite)
    = (filter (notId (tempId Sample.refund)) [Sample.refund]
       ++ T' :: filter (notId (tempId Sample.refund)) [])%list
    /\ b_amount T' = 0
    /\ mergedChildren T' = Some [Sample.refund].
Proof.
  destruct (offset_opposite_kind Sample.opposite Sample.refund Sample.taxi
              [Sample.refund] []) as (T' & H1 & _ & _ & H4 & _ & H6 & _).
  - reflexivity.
  - exact sample_opposite_nodup.
  - simpl. now left.
  - simpl. discriminate.
  - simpl. discriminate.
  - reflexivity.
  - simpl. discriminate.
  - exists T'. split; [exact H1|]. split; [apply H4; simpl; lia | exact H6].
Defined.

Lemma split_after_merge_witness :
  batchList (handleSplitBatchItem (tempId Sample.taxi)
               (handleSelectBatchMergeTarget (tempId Sample.taxi) true Sample.opposite))
  = (filter (notId (tempId Sample.refund)) [Sample.refund]
     ++ Sample.taxi :: Sample.refund :: filter (notId (tempId Sample.refund)) [])%list.
Proof.
  apply (split_after_merge Sample.opposite Sample.refund Sample.taxi [Sample.refund] []).
  - reflexivity.
  - exact sample_opposite_nodup.
  - simpl. now left.
  - simpl. discriminate.
  - simpl. discriminate.
  - reflexivity.
  - reflexivity.
  - reflexivity.
  - reflexivity.
Defined.

Lemma sample_merged_reachable : reachable Sample.merged.
Proof. unfold Sample.merged. repeat apply reach_step. apply reach_init. Defined.

Lemma snapshot_invariant_witness :
  reachable Sample.merged
  /\ (forall t, In t (batchList Sample.merged) -> snapshot_equiv t)
  /\ (forall o t, In t (batchList (run o Sample.merged)) -> snapshot_equiv t).
Proof.
  split; [exact sample_merged_reachable|].
  destruct (snapshot_invariant Sample.merged sample_merged_reachable) as (H1 & H2 & _).
  split; [exact H1 | exact H2].
Defined.


Lemma save_exceeding_target_witness :
  App.addTransaction [Sample.salary] 1700000000000 [Sample.dinner] (Some "t1")
  = (filter (fun t => App.positive t && negb (id t =? "t1")%string) [Sample.salary]
     ++ [App.remainderTrans 1700000000000 Sample.dinner Sample.salary])%list.
Proof.
  apply (save_exceeding_target [Sample.salary] 1700000000000 Sample.dinner "t1"
           Sample.salary).
  - simpl. constructor; [intros [] | constructor].
  - discriminate.
  - reflexivity.
  - simpl. lia.
Defined.

Lemma batch_offset_creates_remainder_witness :
  In ([rest Sample.owed], Some "t1") (out_saves (handleSaveAllBatch Sample.offsetting))
  /\ In (App.remainderTrans (Sample.clock 0%nat) (rest Sample.owed) Sample.salary)
        (storeAfter [Sample.salary] Sample.clock
           (out_saves (handleSaveAllBatch Sample.offsetting))).
Proof.
  destruct (batch_offset_creates_remainder Sample.offsetting [Sample.salary]
              Sample.clock Sample.owed "t1" Sample.salary) as (H1 & _ & H3).
  - simpl. now left.
  - simpl. lia.
  - reflexivity.
  - discriminate.
  - reflexivity.
  - simpl. lia.
  - split; [exact H1 | apply H3; reflexivity].
Defined.


Lemma unknown_staged_target_ignored_witness :
  (forall x, In x (batchList Sample.alone) -> tempId x <> "zz")
  /\ batchList (handleSelectBatchMergeTarget "zz" true Sample.alone)
     = batchList Sample.alone.
Proof.
  assert (H : forall x, In x (batchList Sample.alone) -> tempId x <> "zz").
  { intros x Hx. simpl in Hx. destruct Hx as [<-|[]]. simpl. discriminate. }
  split; [exact H|].
  apply (unknown_staged_target_ignored Sample.alone "zz" H).
Defined.

Lemma save_discards_nonpositive_witness :
  batchList Sample.blank <> []
  /\ (forall t, In t (batchList Sample.blank) -> b_amount t <= 0)
  /\ handleSaveAllBatch Sample.blank
     = mkOut (setToast "金额必须大于0" error Sample.blank) [] false.
Proof.
  assert (H1 : batchList Sample.blank <> []) by (simpl; discriminate).
  assert (H2 : forall t, In t (batchList Sample.blank) -> b_amount t <= 0).
  { intros t Ht. simpl in Ht. destruct Ht as [<-|[]]. simpl. lia. }
  split; [exact H1|]. split; [exact H2|].
  destruct (save_discards_nonpositive Sample.blank [Sample.salary] Sample.clock)
    as (_ & _ & _ & _ & H & _).
  exact (H H1 H2).
Defined.

(** * Further properties of the store writer *)

Lemma toString_inj (a b : Z) : toString a = toString b -> a = b.
Proof.
  unfold toString. intros H.
  assert (N : forall z, Z.to_int z <> Decimal.Pos Decimal.Nil
                        /\ Z.to_int z <> Decimal.Neg Decimal.Nil).
  { intros z. destruct z as [|p|p]; simpl; split; try discriminate.
    - intros E. injection E as E. now apply (DecimalPos.Unsigned.to_uint_nonnil p).
    - intros E. injection E as E. now apply (DecimalPos.Unsigned.to_uint_nonnil p). }
  apply DecimalZ.to_int_inj.
  assert (Ha := NilZero.isi (Z.to_int a) (proj1 (N a)) (proj2 (N a))).
  assert (Hb := NilZero.isi (Z.to_int b) (proj1 (N b)) (proj2 (N b))).
  rewrite H in Ha. rewrite Ha in Hb. now injection Hb.
Qed.

Lemma toString_nonempty (z : Z) : toString z <> "".
Proof.
  unfold toString.
  assert (N : Z.to_int z <> Decimal.Pos Decimal.Nil
              /\ Z.to_int z <> Decimal.Neg Decimal.Nil).
  { destruct z as [|p|p]; simpl; split; try discriminate.
    - intros E. injection E as E. now apply (DecimalPos.Unsigned.to_uint_nonnil p).
    - intros E. injection E as E. now apply (DecimalPos.Unsigned.to_uint_nonnil p). }
  intros H.
  pose proof (NilZero.isi (Z.to_int z) (proj1 N) (proj2 N)) as E.
  rewrite H in E. discriminate E.
Qed.

Lemma mapi_from_withId_data (now : Z) (i : nat) (l : list TransactionData) :
  map dataOf (mapi_from (App.withId now) i l) = l.
Proof.
  revert i. induction l as [|x l IH]; simpl; intros i; [reflexivity|].
  rewrite IH. now destruct x.
Qed.

Lemma mapi_from_withId_ids (now : Z) (i : nat) (l : list TransactionData) :
  map id (mapi_from (App.withId now) i l)
  = map (fun k => toString (now + Z.of_nat k)) (seq i (List.length l)).
Proof.
  revert i. induction l as [|x l IH]; simpl; intros i; [reflexivity|].
  now rewrite IH.
Qed.

Lemma fresh_ids_NoDup (now : Z) (i n : nat) :
  NoDup (map (fun k => toString (now + Z.of_nat k)) (seq i n)).
Proof.
  apply Finite.Injective_map_NoDup; [|apply seq_NoDup].
  intros a b H. apply toString_inj in H. lia.
Qed.

(** Outside the merge branch, that is without a non-empty target or with
    a number of transactions other than one, [addTransaction] is the plain
    append. *)
Lemma addTransaction_not_merge (transactions : list Transaction) (now : Z)
    (items : list TransactionData) (tgt : option string) :
  List.length items <> 1%nat \/ truthyOptStr tgt = false ->
  App.addTransaction transactions now items tgt
  = (transactions ++ mapi (App.withId now) items)%list.
Proof.
  intros H. unfold App.addTransaction.
  destruct tgt as [tid|]; [|now destruct items].
  destruct items as [|n [|n' r]]; try reflexivity.
  destruct H as [H|H]; [now elim H|]. simpl in H. now rewrite H.
Qed.

(** X1.  A save without a non-empty merge target, or with a number of
    transactions other than one, leaves the stored records as they are and
    appends one record per transaction, in order and with its data; the new
    ids are the decimal timestamps [now], [now + 1], ... and pairwise
    distinct. *)
Theorem plain_add_appends :
  forall (transactions : list Transaction) (now : Z) (items : list TransactionData)
         (tgt : option string),
    List.length items <> 1%nat \/ truthyOptStr tgt = false ->
    exists news,
      App.addTransaction transactions now items tgt = (transactions ++ news)%list
      /\ map dataOf news = items
      /\ map id news
         = map (fun k => toString (now + Z.of_nat k)) (seq 0 (List.length items))
      /\ NoDup (map id news).
Proof.
  intros transactions now items tgt H.
  exists (mapi (App.withId now) items).
  split; [now apply addTransaction_not_merge|].
  unfold mapi.
  split; [apply mapi_from_withId_data|].
  split; [apply mapi_from_withId_ids|].
  rewrite mapi_from_withId_ids. apply fresh_ids_NoDup.
Qed.

Lemma filter_positive_all (l : list Transaction) :
  (forall t, In t l -> amount t > 0) -> filter App.positive l = l.
Proof.
  intros H. apply forallb_filter_id, forallb_forall. intros t Ht.
  unfold App.positive. specialize (H t Ht). lia.
Qed.

Lemma find_id_None (tid : string) (l : list Transaction) :
  (forall t, In t l -> id t <> tid) ->
  find (fun t => (id t =? tid)%string) l = None.
Proof.
  induction l as [|a l IH]; simpl; intros H; [reflexivity|].
  assert (E : (id a =? tid)%string = false) by (apply String.eqb_neq, H; now left).
  rewrite E. apply IH. intros t Ht. apply H. now right.
Qed.

(** X2.  A merge save whose target id no stored record has stores nothing
    of the new transaction: the store written is the old store without its
    records of amount [<= 0], and the old store itself when all its amounts
    are positive. *)
Theorem merge_into_absent_target :
  forall (transactions : list Transaction) (now : Z) (newTrans : TransactionData)
         (tid : string),
    tid <> "" ->
    (forall t, In t transactions -> id t <> tid) ->
    App.addTransaction transactions now [newTrans] (Some tid)
    = filter App.positive transactions
    /\ ((forall t, In t transactions -> amount t > 0) ->
        App.addTransaction transactions now [newTrans] (Some tid) = transactions).
Proof.
  intros transactions now newTrans tid Htid Habs.
  assert (E : App.addTransaction transactions now [newTrans] (Some tid)
              = filter App.positive transactions).
  { rewrite addTransaction_merge by assumption.
    rewrite (find_id_None tid transactions Habs), app_nil_r.
    now rewrite (updateTarget_other tid newTrans transactions Habs). }
  split; [exact E|]. intros Hpos. rewrite E. now apply filter_positive_all.
Qed.

(** The store written by a merge commit on a store of positive amounts with
    unique ids: the target is rewritten or dropped where it stands. *)
Lemma merge_commit_shape (l1 l2 : list Transaction) (target : Transaction) (now : Z)
    (n : TransactionData) :
  NoDup (map id (l1 ++ target :: l2)) ->
  (forall t, In t (l1 ++ target :: l2) -> amount t > 0) ->
  id target <> "" ->
  App.addTransaction (l1 ++ target :: l2) now [n] (Some (id target))
  = (l1 ++ (if amount target - d_amount n >? 0
            then [App.updateTarget (id target) n target] else [])
        ++ l2
        ++ (if d_amount n >? amount target
            then [App.remainderTrans now n target] else []))%list.
Proof.
  intros ND Hpos Htid.
  destruct (NoDup_ids_middle l1 l2 target ND) as [H1 H2].
  rewrite addTransaction_merge by assumption.
  rewrite (find_id_middle l1 l2 target H1).
  rewrite map_app. simpl.
  rewrite (updateTarget_other _ n l1 H1), (updateTarget_other _ n l2 H2).
  rewrite filter_app. simpl.
  rewrite (filter_positive_all l1), (filter_positive_all l2);
    [|intros t Ht; apply Hpos, in_or_app; right; now right
     |intros t Ht; apply Hpos, in_or_app; now left].
  assert (P : App.positive (App.updateTarget (id target) n target)
              = (amount target - d_amount n >? 0)).
  { unfold App.positive, App.updateTarget. rewrite String.eqb_refl.
    destruct (amount target - d_amount n <=? 0) eqn:E; simpl; lia. }
  rewrite P.
  destruct (amount target - d_amount n >? 0); simpl; now rewrite <- app_assoc.
Qed.

(** X3.  On a store of positive amounts with unique ids, a merge save
    against a stored target does one of three things.  A smaller amount
    rewrites the target where it stands, under its id, with the amount
    reduced.  An equal amount removes the target and adds nothing.  A larger
    amount removes the target and appends the remainder.  All other records
    keep their place. *)
Theorem merge_commit_cases :
  forall (l1 l2 : list Transaction) (target : Transaction) (now : Z)
         (newTrans : TransactionData),
    NoDup (map id (l1 ++ target :: l2)) ->
    (forall t, In t (l1 ++ target :: l2) -> amount t > 0) ->
    id target <> "" ->
    (d_amount newTrans < amount target ->
     App.addTransaction (l1 ++ target :: l2) now [newTrans] (Some (id target))
     = (l1 ++ App.updateTarget (id target) newTrans target :: l2)%list
     /\ id (App.updateTarget (id target) newTrans target) = id target
     /\ amount (App.updateTarget (id target) newTrans target)
        = amount target - d_amount newTrans
     /\ type (App.updateTarget (id target) newTrans target) = type target)
    /\ (d_amount newTrans = amount target ->
        App.addTransaction (l1 ++ target :: l2) now [newTrans] (Some (id target))
        = (l1 ++ l2)%list)
    /\ (d_amount newTrans > amount target ->
        App.addTransaction (l1 ++ target :: l2) now [newTrans] (Some (id target))
        = (l1 ++ l2 ++ [App.remainderTrans now newTrans target])%list).
Proof.
  intros l1 l2 target now n ND Hpos Htid.
  pose proof (merge_commit_shape l1 l2 target now n ND Hpos Htid) as E.
  split; [|split]; intros H; rewrite E.
  - assert (G1 : (amount target - d_amount n >? 0) = true) by lia.
    assert (G2 : (d_amount n >? amount target) = false) by lia.
    rewrite G1, G2, app_nil_r. split; [reflexivity|].
    unfold App.updateTarget. rewrite String.eqb_refl.
    assert (G3 : (amount target - d_amount n <=? 0) = false) by lia.
    rewrite G3. repeat split.
  - assert (G1 : (amount target - d_amount n >? 0) = false) by lia.
    assert (G2 : (d_amount n >? amount target) = false) by lia.
    rewrite G1, G2, app_nil_r. reflexivity.
  - assert (G1 : (amount target - d_amount n >? 0) = false) by lia.
    assert (G2 : (d_amount n >? amount target) = true) by lia.
    rewrite G1, G2. reflexivity.
Qed.

Lemma balance_app (l1 l2 : list Transaction) :
  balance (l1 ++ l2) = balance l1 + balance l2.
Proof.
  induction l1 as [|a l1 IH]; simpl; [reflexivity|].
  unfold balance in *. simpl. rewrite IH. lia.
Qed.

(** X4.  For whole-number amounts in the safe range, where the
    subtraction of the code is exact: offsetting a new transaction against
    a stored target of the opposite kind leaves the store with the net
    balance (incomes minus expenses) that adding the transaction as a
    record of its own would give, on a store of positive amounts with
    unique ids.  (On fractional amounts the difference is rounded and the
    two balances can differ by the rounding error.) *)
Theorem offset_keeps_balance :
  forall (l1 l2 : list Transaction) (target : Transaction) (now : Z)
         (newTrans : TransactionData),
    NoDup (map id (l1 ++ target :: l2)) ->
    (forall t, In t (l1 ++ target :: l2) -> amount t > 0) ->
    id target <> "" ->
    d_type newTrans <> type target ->
    safeInteger (amount target) -> safeInteger (d_amount newTrans) ->
    safeInteger (amount target - d_amount newTrans) ->
    balance (App.addTransaction (l1 ++ target :: l2) now [newTrans] (Some (id target)))
    = balance (App.addTransaction (l1 ++ target :: l2) now [newTrans] None).
Proof.
  intros l1 l2 target now n ND Hpos Htid Hty _ _ _.
  rewrite (merge_commit_shape l1 l2 target now n ND Hpos Htid).
  rewrite addTransaction_plain. unfold mapi. simpl.
  rewrite !balance_app.
  change (balance (target :: l2)) with (signed (type target) (amount target) + balance l2).
  assert (Hu : amount target - d_amount n > 0 ->
               balance [App.updateTarget (id target) n target]
               = signed (type target) (amount target - d_amount n)).
  { intros G. unfold App.updateTarget. rewrite String.eqb_refl.
    assert (G3 : (amount target - d_amount n <=? 0) = false) by lia.
    rewrite G3. unfold balance. simpl. lia. }
  assert (Hr : balance [App.remainderTrans now n target]
               = signed (d_type n) (d_amount n - amount target))
    by (unfold balance; simpl; lia).
  assert (Hw : balance [App.withId now n 0] = signed (d_type n) (d_amount n))
    by (unfold balance; simpl; lia).
  assert (He : balance [] = 0) by reflexivity.
  rewrite Hw.
  destruct (amount target - d_amount n >? 0) eqn:G1;
    destruct (d_amount n >? amount target) eqn:G2;
    rewrite ?He, ?Hr, ?Hu by lia;
    destruct (type target), (d_type n); unfold signed; try congruence; lia.
Qed.

(** * Deleting, trips and categories ([App.tsx]) *)

Lemma filter_not_id_absent (i : string) (l : list Transaction) :
  (forall t, In t l -> id t <> i) ->
  filter (fun t => negb (id t =? i)%string) l = l.
Proof.
  intros H. apply forallb_filter_id, forallb_forall. intros t Ht.
  apply negb_true_iff, String.eqb_neq. now apply H.
Qed.

(** X5.  Confirming the deletion requested for an id removes every stored
    transaction with that id and no other, keeps the order of the rest and
    closes the request; when no stored transaction has the id the store is
    unchanged, and confirming with no request pending changes nothing. *)
Theorem confirm_delete_removes :
  forall (s : AppData.DeleteState) (i : string),
    i <> "" ->
    AppData.transactions (AppData.confirmDelete (AppData.requestDeleteTransaction i s))
    = filter (fun t => negb (id t =? i)%string) (AppData.transactions s)
    /\ AppData.transactionToDelete
         (AppData.confirmDelete (AppData.requestDeleteTransaction i s)) = None
    /\ (forall t,
          In t (AppData.transactions
                  (AppData.confirmDelete (AppData.requestDeleteTransaction i s)))
          <-> In t (AppData.transactions s) /\ id t <> i)
    /\ ((forall t, In t (AppData.transactions s) -> id t <> i) ->
        AppData.transactions (AppData.confirmDelete (AppData.requestDeleteTransaction i s))
        = AppData.transactions s)
    /\ AppData.confirmDelete (AppData.mkDeleteState (AppData.transactions s) None)
       = AppData.mkDeleteState (AppData.transactions s) None.
Proof.
  intros s i Hi.
  assert (E : AppData.confirmDelete (AppData.requestDeleteTransaction i s)
              = AppData.mkDeleteState
                  (filter (fun t => negb (id t =? i)%string) (AppData.transactions s))
                  None).
  { unfold AppData.confirmDelete, AppData.requestDeleteTransaction. simpl.
    apply truthyStr_true in Hi. now rewrite Hi. }
  rewrite E. simpl. split; [reflexivity|]. split; [reflexivity|].
  split; [|split; [|reflexivity]].
  - intros t. rewrite filter_In, negb_true_iff, String.eqb_neq. tauto.
  - apply filter_not_id_absent.
Qed.

(** X6.  Deleting undoes a plain add: after one transaction has been added
    at a time whose decimal form no stored id equals, requesting and
    confirming the deletion of the new id gives the old store back. *)
Theorem delete_undoes_add :
  forall (transactions : list Transaction) (now : Z) (newTrans : TransactionData),
    (forall t, In t transactions -> id t <> toString now) ->
    AppData.transactions
      (AppData.confirmDelete
         (AppData.requestDeleteTransaction (toString now)
            (AppData.mkDeleteState
               (App.addTransaction transactions now [newTrans] None) None)))
    = transactions.
Proof.
  intros transactions now n Hfresh.
  unfold AppData.confirmDelete, AppData.requestDeleteTransaction. simpl.
  pose proof (toString_nonempty now) as Hne. apply truthyStr_true in Hne.
  rewrite Hne. simpl. unfold mapi. simpl.
  rewrite filter_app. simpl. rewrite Z.add_0_r, String.eqb_refl. simpl.
  rewrite app_nil_r. now apply filter_not_id_absent.
Qed.

(** X7.  Updating a trip replaces the stored trips of its id and nothing
    else: ids, order and number of trips are kept, a trip whose id is
    stored is what a lookup by that id returns afterwards, and a trip whose
    id is not stored is not inserted. *)
Theorem update_trip_replaces :
  forall (trip : AppData.Trip) (trips : list AppData.Trip),
    map AppData.trip_id (AppData.updateTrip trip trips) = map AppData.trip_id trips
    /\ ((exists t, In t trips /\ AppData.trip_id t = AppData.trip_id trip) ->
        find (fun t => (AppData.trip_id t =? AppData.trip_id trip)%string)
             (AppData.updateTrip trip trips) = Some trip)
    /\ ((forall t, In t trips -> AppData.trip_id t <> AppData.trip_id trip) ->
        AppData.updateTrip trip trips = trips)
    /\ (forall t, In t (AppData.updateTrip trip trips) ->
                  AppData.trip_id t <> AppData.trip_id trip -> In t trips).
Proof.
  intros trip trips. unfold AppData.updateTrip.
  split; [|split; [|split]].
  - induction trips as [|a l IH]; simpl; [reflexivity|]. rewrite IH. f_equal.
    destruct (AppData.trip_id a =? AppData.trip_id trip)%string eqn:E; [|reflexivity].
    symmetry. now apply String.eqb_eq.
  - intros (t & Ht & Hid). induction trips as [|a l IH]; simpl; [contradiction|].
    destruct (AppData.trip_id a =? AppData.trip_id trip)%string eqn:E.
    + now rewrite String.eqb_refl.
    + rewrite E. apply IH. destruct Ht as [->|Ht]; [|assumption].
      apply String.eqb_neq in E. contradiction.
  - intros H. induction trips as [|a l IH]; simpl; [reflexivity|].
    assert (E : (AppData.trip_id a =? AppData.trip_id trip)%string = false)
      by (apply String.eqb_neq, H; now left).
    rewrite E, IH; [reflexivity|]. intros t Ht. apply H. now right.
  - intros t Ht Hne. apply in_map_iff in Ht. destruct Ht as (x & Hx & Hin).
    destruct (AppData.trip_id x =? AppData.trip_id trip)%string; subst; [|assumption].
    now elim Hne.
Qed.

(** X8.  Deleting a trip undoes adding it when no stored trip shares its
    id; a deletion that is not confirmed in the dialog changes nothing, and
    a confirmed one leaves no trip with the id. *)
Theorem delete_trip_undoes_add :
  forall (trip : AppData.Trip) (trips : list AppData.Trip) (i : string),
    ((forall t, In t trips -> AppData.trip_id t <> AppData.trip_id trip) ->
     AppData.deleteTrip true (AppData.trip_id trip) (AppData.addTrip trip trips) = trips)
    /\ AppData.deleteTrip false i trips = trips
    /\ (forall t, In t (AppData.deleteTrip true i trips) ->
                  In t trips /\ AppData.trip_id t <> i).
Proof.
  intros trip trips i. split; [|split].
  - intros H. unfold AppData.deleteTrip, AppData.addTrip.
    rewrite filter_app. simpl. rewrite String.eqb_refl. simpl. rewrite app_nil_r.
    apply forallb_filter_id, forallb_forall. intros t Ht.
    apply negb_true_iff, String.eqb_neq. now apply H.
  - reflexivity.
  - intros t Ht. unfold AppData.deleteTrip in Ht. apply filter_In in Ht.
    rewrite negb_true_iff, String.eqb_neq in Ht. exact Ht.
Qed.

(** * Category lookup *)

Lemma prefix_refl (s : string) : String.prefix s s = true.
Proof.
  induction s as [|a s IH]; simpl; [reflexivity|].
  destruct (Ascii.ascii_dec a a); [exact IH | congruence].
Qed.

Lemma includes_refl (s : string) : includes s s = true.
Proof.
  destruct s as [|a s]; [reflexivity|].
  unfold includes. fold includes. now rewrite prefix_refl.
Qed.

Lemma firstOfType_cases (categories : list Category) (k : TransactionType) :
  (firstOfType categories k = ""
   /\ forall c, In c categories -> c_type c = k -> c_id c = "")
  \/ exists c, In c categories /\ c_type c = k /\ firstOfType categories k = c_id c.
Proof.
  unfold firstOfType.
  destruct (find (fun c => TransactionType_eqb (c_type c) k) categories) as [c|] eqn:E.
  - right. exists c. apply find_some in E. destruct E as [Hin Ht].
    apply TransactionType_eqb_eq in Ht. auto.
  - left. split; [reflexivity|]. intros c Hc Ht.
    pose proof (find_none _ _ E c Hc) as F. simpl in F.
    apply TransactionType_eqb_eq in Ht. congruence.
Qed.

(** X9.  The category id found for a suggested name is the empty string or
    the id of one of the given categories.  It is not empty when all ids
    are non-empty and some category has the wanted kind; with no category
    at all it is empty. *)
Theorem findCategoryId_result :
  forall (toLowerCase : string -> string) (categories : list Category)
         (name : option string) (k : TransactionType),
    (findCategoryId toLowerCase categories name k = ""
     \/ exists c, In c categories
                  /\ c_id c = findCategoryId toLowerCase categories name k)
    /\ ((forall c, In c categories -> c_id c <> "") ->
        (exists c, In c categories /\ c_type c = k) ->
        findCategoryId toLowerCase categories name k <> "")
    /\ findCategoryId toLowerCase [] name k = "".
Proof.
  intros lower categories name k.
  assert (F : (firstOfType categories k = ""
               \/ exists c, In c categories /\ c_id c = firstOfType categories k)
              /\ ((forall c, In c categories -> c_id c <> "") ->
                  (exists c, In c categories /\ c_type c = k) ->
                  firstOfType categories k <> "")).
  { destruct (firstOfType_cases categories k) as [[E H]|(c & Hc & Ht & E)].
    - split; [now left|]. intros Hne (c & Hc & Ht) _. apply (Hne c Hc). now apply H.
    - split; [right; exists c; auto|]. intros Hne _. rewrite E. now apply Hne. }
  destruct F as [F1 F2].
  split; [|split].
  - unfold findCategoryId. destruct name as [n|]; [|exact F1].
    destruct (truthyStr n); [|exact F1].
    destruct (find (nameMatches lower n) categories) as [m|] eqn:E; [|exact F1].
    right. exists m. apply find_some in E. tauto.
  - intros Hne Hex. unfold findCategoryId. destruct name as [n|]; [|now apply F2].
    destruct (truthyStr n); [|now apply F2].
    destruct (find (nameMatches lower n) categories) as [m|] eqn:E; [|now apply F2].
    apply find_some in E. apply Hne. tauto.
  - unfold findCategoryId, firstOfType. simpl.
    destruct name as [n|]; [destruct (truthyStr n)|]; reflexivity.
Qed.

(** X10.  A lookup by the non-empty name of one of the categories never
    takes the fallback on the kind: it returns the id of the first category
    whose lower-cased name contains the lower-cased suggestion or is
    contained in it, whatever kind is asked for and whatever kind that
    category has. *)
Theorem findCategoryId_by_name :
  forall (toLowerCase : string -> string) (categories : list Category)
         (c : Category) (k : TransactionType),
    In c categories -> c_name c <> "" ->
    exists m,
      find (nameMatches toLowerCase (c_name c)) categories = Some m
      /\ In m categories
      /\ (forall k', findCategoryId toLowerCase categories (Some (c_name c)) k' = c_id m)
      /\ findCategoryId toLowerCase categories (Some (c_name c)) k = c_id m.
Proof.
  intros lower categories c k Hc Hn.
  destruct (find (nameMatches lower (c_name c)) categories) as [m|] eqn:E.
  - exists m. pose proof (find_some _ _ E) as [Hm _].
    assert (G : forall k', findCategoryId lower categories (Some (c_name c)) k' = c_id m).
    { intros k'. unfold findCategoryId. apply truthyStr_true in Hn. now rewrite Hn, E. }
    auto.
  - exfalso. pose proof (find_none _ _ E c Hc) as F.
    unfold nameMatches in F. now rewrite includes_refl in F.
Qed.

(** * Further properties of the staging buffer *)

Section Measures.

Variable m : BatchTransaction -> Z.

Lemma sum_rows_app (l1 l2 : list BatchTransaction) :
  fold_right (fun t acc => m t + acc) 0 (l1 ++ l2)
  = fold_right (fun t acc => m t + acc) 0 l1
    + fold_right (fun t acc => m t + acc) 0 l2.
Proof. induction l1 as [|a l1 IH]; simpl; [reflexivity|]. rewrite IH. lia. Qed.

(** In a buffer with unique ids, a row counts once: the sum is the row's
    measure plus the sum over the buffer without the row's id. *)
Lemma sum_rows_without (l : list BatchTransaction) (x : BatchTransaction) :
  NoDup (map tempId l) -> In x l ->
  fold_right (fun t acc => m t + acc) 0 l
  = m x + fold_right (fun t acc => m t + acc) 0 (filter (notId (tempId x)) l).
Proof.
  induction l as [|a l IH]; simpl; intros ND HIn; [contradiction|].
  inversion ND as [|? ? Hnotin ND']; subst.
  destruct HIn as [->|HIn].
  - assert (E : notId (tempId x) x = false).
    { unfold notId. now rewrite String.eqb_refl. }
    rewrite E.
    assert (F : filter (notId (tempId x)) l = l); [|now rewrite F].
    apply forallb_filter_id, forallb_forall. intros y Hy.
    apply notId_true. intros Eq. apply Hnotin. rewrite <- Eq. now apply in_map.
  - assert (E : notId (tempId x) a = true).
    { apply notId_true. intros Eq. apply Hnotin. rewrite Eq. now apply in_map. }
    rewrite E. simpl. rewrite (IH ND' HIn). lia.
Qed.

(** The sums before and after a local merge differ by what the merge does
    to the two rows. *)
Lemma sum_rows_local_merge (st : State) (S T : BatchTransaction)
    (l1 l2 : list BatchTransaction) :
  batchList st = (l1 ++ T :: l2)%list ->
  NoDup (map tempId (batchList st)) ->
  In S (batchList st) ->
  tempId S <> tempId T ->
  tempId S <> "" ->
  activeBatchTempId st = Some (tempId S) ->
  fold_right (fun t acc => m t + acc) 0
    (batchList (handleSelectBatchMergeTarget (tempId T) true st))
  + m S + m T
  = fold_right (fun t acc => m t + acc) 0 (batchList st) + m (updatedTargetOf S T).
Proof.
  intros Hbuf ND HS Hdiff Hid Hact.
  rewrite (local_merge_shape st S T l1 l2 Hbuf ND HS Hdiff Hid Hact).
  rewrite (sum_rows_without (batchList st) S ND HS), Hbuf.
  rewrite filter_app. simpl.
  assert (HT : notId (tempId S) T = true) by (apply notId_true; congruence).
  rewrite HT, !sum_rows_app. simpl. lia.
Qed.

End Measures.

Lemma updatedTargetOf_type (s t : BatchTransaction) :
  b_type (updatedTargetOf s t) = b_type t.
Proof.
  destruct (baseTargetOf_fields t) as (_ & _ & Ht & _ & _).
  unfold updatedTargetOf. destruct (TransactionType_eqb _ _); simpl; exact Ht.
Qed.

(** X11.  For whole-number amounts in the safe range, where the addition
    of the code is exact: a merge of two staged rows of the same kind
    conserves the buffer, the sum of the amounts of its rows and the net
    amount (incomes minus expenses) being the same before and after.  (On
    fractional amounts the sum is rounded and the totals can differ by the
    rounding error.) *)
Theorem merge_conserves_total :
  forall (st : State) (S T : BatchTransaction) (l1 l2 : list BatchTransaction),
    batchList st = (l1 ++ T :: l2)%list ->
    NoDup (map tempId (batchList st)) ->
    In S (batchList st) ->
    tempId S <> tempId T ->
    tempId S <> "" ->
    activeBatchTempId st = Some (tempId S) ->
    b_type S = b_type T ->
    safeInteger (b_amount S) -> safeInteger (b_amount T) ->
    safeInteger (b_amount T + b_amount S) ->
    totalAmount (batchList (handleSelectBatchMergeTarget (tempId T) true st))
    = totalAmount (batchList st)
    /\ netAmount (batchList (handleSelectBatchMergeTarget (tempId T) true st))
       = netAmount (batchList st).
Proof.
  intros st S T l1 l2 Hbuf ND HS Hdiff Hid Hact Hty _ _ _.
  destruct (updatedTargetOf_same S T Hty) as [Ha _].
  pose proof (updatedTargetOf_type S T) as Hk.
  split.
  - pose proof (sum_rows_local_merge b_amount st S T l1 l2 Hbuf ND HS Hdiff Hid Hact) as E.
    unfold totalAmount. lia.
  - pose proof (sum_rows_local_merge (fun t => signed (b_type t) (b_amount t))
                  st S T l1 l2 Hbuf ND HS Hdiff Hid Hact) as E.
    cbv beta in E. rewrite Hk, Ha, Hty in E.
    unfold netAmount. destruct (b_type T); simpl in E; lia.
Qed.

(** X12.  For whole-number amounts in the safe range, where the
    subtraction of the code is exact: an offset of two staged rows of
    opposite kinds conserves the net amount of the buffer when the
    target's amount is at least the source's.  When it is smaller, the
    target is floored at zero and the net amount moves by the excess
    [S.amount - T.amount], counted with the target's sign: that excess is
    gone from the buffer.  (On fractional amounts the difference is
    rounded and the first equality can fail by the rounding error.) *)
Theorem offset_net_amount :
  forall (st : State) (S T : BatchTransaction) (l1 l2 : list BatchTransaction),
    batchList st = (l1 ++ T :: l2)%list ->
    NoDup (map tempId (batchList st)) ->
    In S (batchList st) ->
    tempId S <> tempId T ->
    tempId S <> "" ->
    activeBatchTempId st = Some (tempId S) ->
    b_type S <> b_type T ->
    safeInteger (b_amount S) -> safeInteger (b_amount T) ->
    safeInteger (b_amount T - b_amount S) ->
    (b_amount T >= b_amount S ->
     netAmount (batchList (handleSelectBatchMergeTarget (tempId T) true st))
     = netAmount (batchList st))
    /\ (b_amount T < b_amount S ->
        netAmount (batchList (handleSelectBatchMergeTarget (tempId T) true st))
        = netAmount (batchList st) + signed (b_type T) (b_amount S - b_amount T)).
Proof.
  intros st S T l1 l2 Hbuf ND HS Hdiff Hid Hact Hty _ _ _.
  destruct (updatedTargetOf_opposite S T Hty) as [Ha _].
  pose proof (updatedTargetOf_type S T) as Hk.
  pose proof (sum_rows_local_merge (fun t => signed (b_type t) (b_amount t))
                st S T l1 l2 Hbuf ND HS Hdiff Hid Hact) as E.
  cbv beta in E. rewrite Hk, Ha in E. unfold netAmount.
  split; intros G; destruct (b_type T), (b_type S); simpl in *; try congruence; lia.
Qed.

(** ** Ids under the operations *)

Lemma map_cond_ids (i : string) (g : BatchTransaction -> BatchTransaction)
    (l : list BatchTransaction) :
  (forall x, tempId (g x) = tempId x) ->
  map tempId (map (fun x => if hasId i x then g x else x) l) = map tempId l.
Proof.
  intros Hg. induction l as [|a l IH]; simpl; [reflexivity|].
  rewrite IH. destruct (hasId i a); now rewrite ?Hg.
Qed.

Lemma map_cond_absent (i : string) (g : BatchTransaction -> BatchTransaction)
    (l : list BatchTransaction) :
  (forall x, In x l -> tempId x <> i) ->
  map (fun x => if hasId i x then g x else x) l = l.
Proof.
  induction l as [|a l IH]; simpl; intros H; [reflexivity|].
  assert (Ha : hasId i a = false) by (apply hasId_false, H; now left).
  rewrite Ha, IH; [reflexivity|]. intros x Hx. apply H. now right.
Qed.

Lemma applyField_tempId (u : FieldUpdate) (x : BatchTransaction) :
  tempId (applyField u x) = tempId x.
Proof. now destruct u. Qed.

Lemma mergedList_ids (active targetId : string) (u : BatchTransaction)
    (l : list BatchTransaction) :
  tempId u = targetId ->
  map tempId (mergedList active targetId u l) = map tempId (filter (notId active) l).
Proof.
  intros Hu. unfold mergedList.
  induction (filter (notId active) l) as [|a r IH]; simpl; [reflexivity|].
  rewrite IH. destruct (hasId targetId a) eqn:E; [|reflexivity].
  apply hasId_true in E. congruence.
Qed.

Lemma NoDup_ids_filter (p : BatchTransaction -> bool) (l : list BatchTransaction) :
  NoDup (map tempId l) -> NoDup (map tempId (filter p l)).
Proof.
  induction l as [|a l IH]; simpl; intros ND; [constructor|].
  inversion ND as [|? ? Hnotin ND']; subst.
  destruct (p a); [|now apply IH]. simpl. constructor; [|now apply IH].
  intros H. apply Hnotin. apply in_map_iff in H. destruct H as (x & E & Hx).
  apply filter_In in Hx. rewrite <- E. apply in_map. tauto.
Qed.

(** After an operation that adds no row, the ids of the buffer are those
    of a filtering of the old buffer, in the same order. *)
Lemma ids_after_run (o : Op) (st : State) :
  addsNoRow o = true ->
  exists p, map tempId (batchList (run o st)) = map tempId (filter p (batchList st)).
Proof.
  assert (Same : forall l : list BatchTransaction,
             l = filter (fun _ => true) l).
  { intros l. symmetry. apply forallb_filter_id, forallb_forall. reflexivity. }
  intros H. destruct o; try discriminate H; simpl.
  - exists (fun _ => true). rewrite <- Same. apply map_cond_ids, applyField_tempId.
  - exists (notId i). reflexivity.
  - exists (fun _ => true). now rewrite <- Same.
  - unfold handleSelectBatchMergeTarget.
    destruct (activeBatchTempId st) as [active|];
      [|exists (fun _ => true); now rewrite <- Same].
    destruct (negb (truthyStr active)); [exists (fun _ => true); now rewrite <- Same|].
    simpl. destruct isUnsavedBatchItem.
    + destruct (find (hasId active) (batchList st)) as [s|];
        [|exists (fun _ => true); now rewrite <- Same].
      destruct (find (hasId targetId) (batchList st)) as [t|] eqn:Et;
        [|exists (fun _ => true); now rewrite <- Same].
      exists (notId active). simpl. apply mergedList_ids.
      rewrite updatedTargetOf_tempId. apply find_some in Et.
      now apply hasId_true.
    + exists (fun _ => true). rewrite <- Same. simpl. now apply map_cond_ids.
  - exists (fun _ => true). rewrite <- Same. now apply map_cond_ids.
  - unfold handleSaveSingleBatchItem.
    destruct (find (hasId i) (batchList st));
      [|exists (fun _ => true); now rewrite <- Same].
    destruct (invalidAmount _); simpl;
      [exists (fun _ => true); now rewrite <- Same | exists (notId i); reflexivity].
  - exists (fun _ => true). now rewrite saveAll_keeps_buffer, <- Same.
Qed.

(** X13.  Editing a field, deleting, opening the picker, selecting or
    clearing a merge target (staged or saved) and saving never bring an id
    into the buffer and never duplicate one: the ids after the operation
    are ids of the buffer before it, the buffer does not grow, and ids
    that were pairwise distinct stay so. *)
Theorem ids_stay_unique :
  forall (o : Op) (st : State),
    addsNoRow o = true ->
    incl (map tempId (batchList (run o st))) (map tempId (batchList st))
    /\ (List.length (batchList (run o st)) <= List.length (batchList st))%nat
    /\ (NoDup (map tempId (batchList st)) ->
        NoDup (map tempId (batchList (run o st)))).
Proof.
  intros o st H. destruct (ids_after_run o st H) as (p & E).
  split; [|split].
  - rewrite E. intros i Hi. apply in_map_iff in Hi. destruct Hi as (x & <- & Hx).
    apply filter_In in Hx. apply in_map. tauto.
  - rewrite <- (length_map tempId), E, length_map. apply filter_length_le.
  - intros ND. rewrite E. now apply NoDup_ids_filter.
Qed.

(** ** Split after several merges, and where it does nothing *)

Lemma updatedTargetOf_static (s t : BatchTransaction) :
  b_categoryId (updatedTargetOf s t) = b_categoryId t
  /\ b_date (updatedTargetOf s t) = b_date t
  /\ mergeTargetId (updatedTargetOf s t) = mergeTargetId t.
Proof.
  unfold updatedTargetOf, baseTargetOf.
  destruct (mergedChildren t); destruct (TransactionType_eqb _ _); simpl;
    repeat split; reflexivity.
Qed.

Lemma updatedTargetOf_snapshot (s t : BatchTransaction) :
  originalAmount (updatedTargetOf s t)
  = match mergedChildren t with
    | Some _ => originalAmount t
    | None => Some (b_amount t)
    end
  /\ originalNote (updatedTargetOf s t)
     = match mergedChildren t with
       | Some _ => originalNote t
       | None => Some (b_note t)
       end.
Proof.
  unfold updatedTargetOf, baseTargetOf.
  destruct (mergedChildren t); destruct (TransactionType_eqb _ _); simpl;
    split; reflexivity.
Qed.

Lemma revertedParent_two (s1 s2 t : BatchTransaction) :
  mergedChildren t = None -> originalAmount t = None -> originalNote t = None ->
  revertedParent (updatedTargetOf s2 (updatedTargetOf s1 t)) = t
  /\ children (updatedTargetOf s2 (updatedTargetOf s1 t)) = [s1; s2].
Proof.
  intros Hc Ha Hn.
  pose proof (updatedTargetOf_children s1 t) as C1.
  pose proof (updatedTargetOf_children s2 (updatedTargetOf s1 t)) as C2.
  destruct (updatedTargetOf_snapshot s1 t) as [A1 N1].
  destruct (updatedTargetOf_snapshot s2 (updatedTargetOf s1 t)) as [A2 N2].
  destruct (updatedTargetOf_static s1 t) as (K1 & D1 & M1).
  destruct (updatedTargetOf_static s2 (updatedTargetOf s1 t)) as (K2 & D2 & M2).
  rewrite C1 in A2, N2. rewrite Hc in A1, N1.
  assert (Ch1 : children (updatedTargetOf s1 t) = [s1]).
  { unfold children at 1. rewrite C1. unfold children. now rewrite Hc. }
  split.
  - unfold revertedParent.
    rewrite A2, A1, N2, N1, K2, K1, D2, D1, M2, M1, !updatedTargetOf_tempId,
      !updatedTargetOf_type.
    destruct t; simpl in *; subst; reflexivity.
  - unfold children at 1. rewrite C2, Ch1. reflexivity.
Qed.

(** X14.  The snapshot is taken at the first merge only.  After two
    sources have been merged or offset, one after the other, into an
    unmerged target, one split gives the target back as it was before the
    first merge and re-inserts both sources after it, in the order in
    which they were absorbed. *)
Theorem split_after_two_merges :
  forall (st : State) (S1 S2 T : BatchTransaction) (l1 l2 : list BatchTransaction),
    batchList st = (l1 ++ T :: l2)%list ->
    NoDup (map tempId (batchList st)) ->
    In S1 (batchList st) -> In S2 (batchList st) ->
    tempId S1 <> tempId T -> tempId S2 <> tempId T -> tempId S1 <> tempId S2 ->
    tempId S1 <> "" -> tempId S2 <> "" ->
    mergedChildren T = None -> originalAmount T = None -> originalNote T = None ->
    batchList
      (handleSplitBatchItem (tempId T)
         (handleSelectBatchMergeTarget (tempId T) true
            (handleOpenBatchMerge (tempId S2)
               (handleSelectBatchMergeTarget (tempId T) true
                  (handleOpenBatchMerge (tempId S1) st)))))
    = (filter (notId (tempId S2)) (filter (notId (tempId S1)) l1)
       ++ T :: S1 :: S2
       :: filter (notId (tempId S2)) (filter (notId (tempId S1)) l2))%list.
Proof.
  intros st S1 S2 T l1 l2 Hbuf ND H1 H2 D1 D2 D12 N1 N2 Hc Ha Hn.
  set (st0 := handleOpenBatchMerge (tempId S1) st).
  pose proof (local_merge_shape st0 S1 T l1 l2 Hbuf ND H1 D1 N1 eq_refl) as E1.
  set (st1 := handleSelectBatchMergeTarget (tempId T) true st0) in *.
  set (st2 := handleOpenBatchMerge (tempId S2) st1).
  set (U1 := updatedTargetOf S1 T) in *.
  assert (B2 : batchList st2 = batchList st1) by reflexivity.
  assert (ND2 : NoDup (map tempId (batchList st2))).
  { rewrite B2. unfold st1, handleSelectBatchMergeTarget. simpl.
    assert (Ht : truthyStr (tempId S1) = true) by now apply truthyStr_true.
    rewrite Ht. simpl.
    rewrite (find_hasId_In _ S1 ND H1).
    assert (HT : In T (batchList st)) by (rewrite Hbuf; apply in_elt).
    rewrite (find_hasId_In _ T ND HT). simpl.
    rewrite mergedList_ids by apply updatedTargetOf_tempId.
    now apply NoDup_ids_filter. }
  assert (In2 : In S2 (batchList st2)).
  { rewrite B2, E1. rewrite Hbuf in H2.
    assert (K : notId (tempId S1) S2 = true) by (apply notId_true; congruence).
    apply in_app_or in H2. destruct H2 as [H2|[H2|H2]].
    - apply in_or_app. left. apply filter_In. tauto.
    - subst. now elim D2.
    - apply in_or_app. right. right. apply filter_In. tauto. }
  assert (DU : tempId S2 <> tempId U1)
    by (unfold U1; now rewrite updatedTargetOf_tempId).
  pose proof (local_merge_shape st2 S2 U1 _ _ (eq_trans B2 E1) ND2 In2 DU N2 eq_refl) as E2.
  unfold U1 in E2 at 1. rewrite updatedTargetOf_tempId in E2.
  unfold handleSplitBatchItem. simpl. fold st0 st1 st2. rewrite E2.
  destruct (revertedParent_two S1 S2 T Hc Ha Hn) as [Hrev Hch].
  rewrite splitList_at.
  - unfold U1. now rewrite Hrev, Hch.
  - intros x Hx. apply In_filter_notId in Hx. destruct Hx as [Hx _].
    apply In_filter_notId in Hx. rewrite Hbuf in ND.
    apply (NoDup_split_ids _ _ _ ND), in_or_app. tauto.
  - unfold U1. now rewrite !updatedTargetOf_tempId.
  - unfold hasChildren. rewrite updatedTargetOf_children.
    destruct (children U1); reflexivity.
Qed.

Lemma findIndex_find {A : Type} (p : A -> bool) (l : list A) :
  match findIndex p l with
  | Some k => nth_error l k = find p l /\ find p l <> None
  | None => find p l = None
  end.
Proof.
  induction l as [|a l IH]; simpl; [reflexivity|].
  destruct (p a); [split; [reflexivity|discriminate]|].
  destruct (findIndex p l); [exact IH | exact IH].
Qed.

(** X15.  Splitting does nothing to the buffer when no row has the id or
    when the first row with the id has no absorbed children; the toast
    announcing the split is shown all the same. *)
Theorem split_without_children :
  forall (st : State) (i : string),
    (find (hasId i) (batchList st) = None
     \/ exists u, find (hasId i) (batchList st) = Some u /\ hasChildren u = false) ->
    batchList (handleSplitBatchItem i st) = batchList st
    /\ toast (handleSplitBatchItem i st) = Some ("已拆分/撤销合并", success).
Proof.
  intros st i H. split; [|reflexivity].
  unfold handleSplitBatchItem. simpl. unfold splitList.
  pose proof (findIndex_find (hasId i) (batchList st)) as F.
  destruct (findIndex (hasId i) (batchList st)) as [k|]; [|reflexivity].
  destruct F as [F _]. rewrite F.
  destruct H as [H|(u & H & Hu)]; rewrite H; [reflexivity|]. now rewrite Hu.
Qed.

(** X16.  An edit of the amount or of the note of a merged row does not
    reach its snapshot: splitting the row afterwards gives the same buffer
    as splitting it without the edit, so the edit is discarded. *)
Theorem split_discards_edit :
  forall (st : State) (u : BatchTransaction) (f1 f2 : list BatchTransaction) (v : Z)
         (w : string),
    batchList st = (f1 ++ u :: f2)%list ->
    (forall x, In x (f1 ++ f2)%list -> tempId x <> tempId u) ->
    hasChildren u = true -> hasSnapshot u = true ->
    batchList (handleSplitBatchItem (tempId u)
                 (handleUpdateBatchItem (tempId u) (SetAmount v) st))
    = batchList (handleSplitBatchItem (tempId u) st)
    /\ batchList (handleSplitBatchItem (tempId u)
                    (handleUpdateBatchItem (tempId u) (SetNote w) st))
       = batchList (handleSplitBatchItem (tempId u) st).
Proof.
  intros st u f1 f2 v w Hbuf Habs Hc Hs.
  assert (A1 : forall x, In x f1 -> tempId x <> tempId u)
    by (intros x Hx; apply Habs, in_or_app; now left).
  assert (A2 : forall x, In x f2 -> tempId x <> tempId u)
    by (intros x Hx; apply Habs, in_or_app; now right).
  assert (Upd : forall e,
             batchList (handleUpdateBatchItem (tempId u) e st)
             = (f1 ++ applyField e u :: f2)%list).
  { intros e. unfold handleUpdateBatchItem. simpl. rewrite Hbuf, map_app. simpl.
    assert (Hu : hasId (tempId u) u = true) by now apply hasId_true.
    rewrite Hu, (map_cond_absent _ _ f1 A1), (map_cond_absent _ _ f2 A2).
    reflexivity. }
  unfold hasSnapshot in Hs. apply andb_true_iff in Hs. destruct Hs as [Sa Sn].
  destruct (originalAmount u) as [a|] eqn:Ea; [|discriminate].
  destruct (originalNote u) as [n|] eqn:En; [|discriminate].
  assert (Base : batchList (handleSplitBatchItem (tempId u) st)
                 = (f1 ++ revertedParent u :: children u ++ f2)%list).
  { unfold handleSplitBatchItem. simpl. rewrite Hbuf. now apply splitList_at. }
  assert (Edit : forall e,
             hasChildren (applyField e u) = true ->
             revertedParent (applyField e u) = revertedParent u ->
             children (applyField e u) = children u ->
             batchList (handleSplitBatchItem (tempId u)
                          (handleUpdateBatchItem (tempId u) e st))
             = batchList (handleSplitBatchItem (tempId u) st)).
  { intros e K1 K2 K3. rewrite Base.
    change (batchList (handleSplitBatchItem (tempId u)
                         (handleUpdateBatchItem (tempId u) e st)))
      with (splitList (tempId u) (batchList (handleUpdateBatchItem (tempId u) e st))).
    rewrite (Upd e). rewrite splitList_at; [now rewrite K2, K3| | |];
      [exact A1 | apply applyField_tempId | exact K1]. }
  split; apply Edit; try exact Hc; try reflexivity;
    unfold revertedParent; simpl; now rewrite Ea, En.
Qed.

(** ** From the buffer to the store *)

Lemma find_map_cond (i : string) (g : BatchTransaction -> BatchTransaction)
    (l : list BatchTransaction) :
  (forall x, tempId (g x) = tempId x) ->
  find (hasId i) (map (fun x => if hasId i x then g x else x) l)
  = option_map g (find (hasId i) l).
Proof.
  intros Hg. induction l as [|a l IH]; simpl; [reflexivity|].
  destruct (hasId i a) eqn:E.
  - unfold hasId in *. rewrite Hg, E. reflexivity.
  - rewrite E. exact IH.
Qed.

Lemma select_saved_buffer (st : State) (i tid : string) :
  activeBatchTempId st = Some i -> i <> "" ->
  batchList (handleSelectBatchMergeTarget tid false st)
  = map (fun item => if hasId i item then setMergeTargetId (Some tid) item else item)
        (batchList st).
Proof.
  intros Hact Hi. unfold handleSelectBatchMergeTarget. rewrite Hact.
  apply truthyStr_true in Hi. now rewrite Hi.
Qed.

Lemma saveSingle_valid (st : State) (i : string) (item : BatchTransaction) :
  find (hasId i) (batchList st) = Some item -> b_amount item > 0 ->
  handleSaveSingleBatchItem i st
  = mkOut (setToast "已保存" success (handleDeleteBatchItem i st))
      [([rest item], mergeTargetId item)] false.
Proof.
  intros Hf Hpos. unfold handleSaveSingleBatchItem. rewrite Hf.
  apply invalidAmount_false in Hpos. now rewrite Hpos.
Qed.

(** X17.  A saved target selected for a staged row is what the single save
    of that row hands to the store, with the row's data.  Changing the
    row's kind in between, or clearing the target, makes the same save a
    plain one: the target is not passed on. *)
Theorem saved_target_reaches_save :
  forall (st : State) (i tid : string) (S : BatchTransaction) (k : TransactionType),
    find (hasId i) (batchList st) = Some S ->
    activeBatchTempId st = Some i -> i <> "" ->
    b_amount S > 0 ->
    out_saves (handleSaveSingleBatchItem i (handleSelectBatchMergeTarget tid false st))
    = [([rest S], Some tid)]
    /\ out_saves (handleSaveSingleBatchItem i
                    (handleUpdateBatchItem i (SetType k)
                       (handleSelectBatchMergeTarget tid false st)))
       = [([mkData (b_amount S) k (b_categoryId S) (b_date S) (b_note S)], None)]
    /\ out_saves (handleSaveSingleBatchItem i
                    (handleClearBatchMerge i
                       (handleSelectBatchMergeTarget tid false st)))
       = [([rest S], None)].
Proof.
  intros st i tid S k Hf Hact Hi Hpos.
  pose proof (select_saved_buffer st i tid Hact Hi) as B.
  assert (F1 : find (hasId i) (batchList (handleSelectBatchMergeTarget tid false st))
               = Some (setMergeTargetId (Some tid) S)).
  { rewrite B, find_map_cond by reflexivity. now rewrite Hf. }
  split; [|split].
  - now rewrite (saveSingle_valid _ i _ F1 Hpos).
  - assert (F2 : find (hasId i)
                   (batchList (handleUpdateBatchItem i (SetType k)
                                 (handleSelectBatchMergeTarget tid false st)))
                 = Some (applyField (SetType k) (setMergeTargetId (Some tid) S))).
    { unfold handleUpdateBatchItem. simpl batchList at 1.
      rewrite (find_map_cond i (applyField (SetType k))) by reflexivity.
      now rewrite F1. }
    now rewrite (saveSingle_valid _ i _ F2 Hpos).
  - assert (F3 : find (hasId i)
                   (batchList (handleClearBatchMerge i
                                 (handleSelectBatchMergeTarget tid false st)))
                 = Some (setMergeTargetId None (setMergeTargetId (Some tid) S))).
    { unfold handleClearBatchMerge. simpl batchList at 1.
      rewrite find_map_cond by reflexivity. now rewrite F1. }
    now rewrite (saveSingle_valid _ i _ F3 Hpos).
Qed.

(** X18.  The offset of a staged row against a stored transaction, end to
    end: the row selects the stored target and is saved on its own.  When
    the store has unique ids and positive amounts and the row's amount is
    smaller than the target's, the store after the save is the old store
    with the target's amount reduced by the row's amount, where it stood;
    no record is added, and the row has left the buffer. *)
Theorem staged_offset_end_to_end :
  forall (st : State) (i : string) (S : BatchTransaction)
         (l1 l2 : list Transaction) (target : Transaction) (clock : nat -> Z),
    find (hasId i) (batchList st) = Some S ->
    activeBatchTempId st = Some i -> i <> "" ->
    NoDup (map id (l1 ++ target :: l2)) ->
    (forall t, In t (l1 ++ target :: l2) -> amount t > 0) ->
    id target <> "" ->
    0 < b_amount S < amount target ->
    storeAfter (l1 ++ target :: l2) clock
      (out_saves (handleSaveSingleBatchItem i
                    (handleSelectBatchMergeTarget (id target) false st)))
    = (l1 ++ App.updateTarget (id target) (rest S) target :: l2)%list
    /\ amount (App.updateTarget (id target) (rest S) target)
       = amount target - b_amount S
    /\ id (App.updateTarget (id target) (rest S) target) = id target
    /\ (forall x,
          In x (batchList (out_state
                  (handleSaveSingleBatchItem i
                     (handleSelectBatchMergeTarget (id target) false st)))) ->
          tempId x <> i).
Proof.
  intros st i S l1 l2 target clock Hf Hact Hi ND Hpos Htid [Hlo Hhi].
  pose proof (select_saved_buffer st i (id target) Hact Hi) as B.
  assert (F1 : find (hasId i)
                 (batchList (handleSelectBatchMergeTarget (id target) false st))
               = Some (setMergeTargetId (Some (id target)) S)).
  { rewrite B, find_map_cond by reflexivity. now rewrite Hf. }
  assert (Hp : b_amount (setMergeTargetId (Some (id target)) S) > 0) by (simpl; lia).
  rewrite (saveSingle_valid _ i _ F1 Hp).
  assert (Ha : amount (App.updateTarget (id target) (rest S) target)
               = amount target - b_amount S).
  { unfold App.updateTarget. rewrite String.eqb_refl. simpl.
    assert (G : (amount target - b_amount S <=? 0) = false) by lia.
    now rewrite G. }
  split; [|split; [exact Ha|split; [apply updateTarget_id|]]].
  - change (App.addTransaction (l1 ++ target :: l2) (clock 0%nat) [rest S]
              (Some (id target))
            = (l1 ++ App.updateTarget (id target) (rest S) target :: l2)%list).
    rewrite (merge_commit_shape l1 l2 target (clock 0%nat) (rest S) ND Hpos Htid).
    simpl d_amount.
    assert (G1 : (amount target - b_amount S >? 0) = true) by lia.
    assert (G2 : (b_amount S >? amount target) = false) by lia.
    rewrite G1, G2, app_nil_r. reflexivity.
  - intros x Hx. simpl in Hx. apply In_filter_notId in Hx. tauto.
Qed.

(** X19.  A row is committed once: the single save of a valid row hands
    the row's data and merge target to the store in one call and takes
    every row with the id out of the buffer, so that a second single save
    of the same id finds nothing, saves nothing and shows no toast. *)
Theorem single_save_once :
  forall (st : State) (i : string) (item : BatchTransaction),
    find (hasId i) (batchList st) = Some item ->
    b_amount item > 0 ->
    out_saves (handleSaveSingleBatchItem i st) = [([rest item], mergeTargetId item)]
    /\ (forall x, In x (batchList (out_state (handleSaveSingleBatchItem i st))) ->
                  In x (batchList st) /\ tempId x <> i)
    /\ handleSaveSingleBatchItem i (out_state (handleSaveSingleBatchItem i st))
       = mkOut (out_state (handleSaveSingleBatchItem i st)) [] false.
Proof.
  intros st i item Hf Hpos. rewrite (saveSingle_valid st i item Hf Hpos).
  split; [reflexivity|]. split.
  - intros x Hx. simpl in Hx. now apply In_filter_notId in Hx.
  - simpl out_state. unfold handleSaveSingleBatchItem at 1.
    assert (N : find (hasId i)
                  (batchList (setToast "已保存" success (handleDeleteBatchItem i st)))
                = None).
    { apply find_hasId_None. intros x Hx. simpl in Hx.
      apply In_filter_notId in Hx. tauto. }
    now rewrite N.
Qed.

Lemma partition_permutation (p : BatchTransaction -> bool) (l : list BatchTransaction) :
  Permutation.Permutation
    (filter (fun t => negb (p t)) l ++ filter p l)%list l.
Proof.
  induction l as [|a l IH]; simpl; [constructor|].
  destruct (p a); simpl.
  - apply Permutation.Permutation_sym, Permutation.Permutation_cons_app.
    now apply Permutation.Permutation_sym.
  - now constructor.
Qed.

(** X20.  Save-all hands every row with a positive amount to the store
    exactly once: the transactions of all its calls together are the data
    of the valid rows, each as often as the buffer holds it, and no other;
    the rows without amount are in no call. *)
Theorem save_all_covers_valid_rows :
  forall st : State,
    Permutation.Permutation
      (List.concat (map fst (out_saves (handleSaveAllBatch st))))
      (map rest (filter validItem (batchList st)))
    /\ List.length (List.concat (map fst (out_saves (handleSaveAllBatch st))))
       = List.length (filter validItem (batchList st)).
Proof.
  intros st. rewrite saveAll_calls.
  set (v := filter validItem (batchList st)).
  assert (E : List.concat (map fst (saveAllCalls v))
              = (map rest (filter (fun t => negb (hasMergeTarget t)) v)
                 ++ map rest (filter hasMergeTarget v))%list).
  { unfold saveAllCalls. rewrite map_app, concat_app.
    assert (M : List.concat (map fst (map mergeCall (filter hasMergeTarget v)))
                = map rest (filter hasMergeTarget v)).
    { induction (filter hasMergeTarget v) as [|a r IH]; simpl; [reflexivity|].
      now rewrite IH. }
    rewrite M. destruct (filter (fun t => negb (hasMergeTarget t)) v) eqn:F;
      [reflexivity|]. simpl. now rewrite app_nil_r. }
  assert (P : Permutation.Permutation
                (List.concat (map fst (saveAllCalls v))) (map rest v)).
  { rewrite E, <- map_app. apply Permutation.Permutation_map, partition_permutation. }
  split; [exact P|].
  rewrite (Permutation.Permutation_length P). apply length_map.
Qed.

(** * The saved candidates of a merge *)

Section SavedCandidatesFacts.

Variable getTime : string -> Z.

Lemma insertByDate_perm (x : Transaction) (l : list Transaction) :
  Permutation.Permutation (insertByDate getTime x l) (x :: l).
Proof.
  induction l as [|y r IH]; simpl; [apply Permutation.Permutation_refl|].
  destruct (getTime (date y) >? getTime (date x)).
  - eapply Permutation.perm_trans; [apply Permutation.perm_skip, IH|].
    apply Permutation.perm_swap.
  - apply Permutation.Permutation_refl.
Qed.

Lemma sortByDateDesc_perm (l : list Transaction) :
  Permutation.Permutation (sortByDateDesc getTime l) l.
Proof.
  induction l as [|x l IH]; simpl; [constructor|].
  eapply Permutation.perm_trans; [apply insertByDate_perm|].
  now apply Permutation.perm_skip.
Qed.

Lemma insertByDate_sorted (x : Transaction) (l : list Transaction) :
  Sorted.StronglySorted (newer getTime) l ->
  Sorted.StronglySorted (newer getTime) (insertByDate getTime x l).
Proof.
  induction 1 as [|y r Hs IH Hall]; simpl.
  - constructor; constructor.
  - destruct (getTime (date y) >? getTime (date x)) eqn:E.
    + constructor; [exact IH|].
      apply Forall_forall. intros z Hz.
      apply (Permutation.Permutation_in _ (insertByDate_perm x r)) in Hz.
      destruct Hz as [<-|Hz]; [unfold newer; lia|].
      rewrite Forall_forall in Hall. now apply Hall.
    + constructor; [now constructor|].
      constructor; [unfold newer; lia|].
      apply Forall_forall. intros z Hz. rewrite Forall_forall in Hall.
      specialize (Hall z Hz). unfold newer in *. lia.
Qed.

Lemma sortByDateDesc_sorted (l : list Transaction) :
  Sorted.StronglySorted (newer getTime) (sortByDateDesc getTime l).
Proof.
  induction l as [|x l IH]; simpl; [constructor|]. now apply insertByDate_sorted.
Qed.

Lemma sorted_firstn (n : nat) (l : list Transaction) :
  Sorted.StronglySorted (newer getTime) l -> Sorted.StronglySorted (newer getTime) (firstn n l).
Proof.
  intros H. revert n. induction H as [|y r Hs IH Hall]; intros [|n]; simpl;
    try constructor; [apply IH|].
  apply Forall_forall. intros z Hz. rewrite Forall_forall in Hall.
  apply Hall. rewrite <- (firstn_skipn n r). apply in_or_app. now left.
Qed.

Lemma sorted_cut (n : nat) (l : list Transaction) (a b : Transaction) :
  Sorted.StronglySorted (newer getTime) l ->
  In a (firstn n l) -> In b (skipn n l) -> newer getTime a b.
Proof.
  intros H. revert n. induction H as [|y r Hs IH Hall]; intros n Ha Hb.
  - destruct n; contradiction.
  - destruct n as [|n]; [contradiction|]. simpl in Ha, Hb.
    destruct Ha as [<-|Ha]; [|now apply (IH n)].
    rewrite Forall_forall in Hall. apply Hall.
    rewrite <- (firstn_skipn n r). apply in_or_app. now right.
Qed.

(** X21.  The saved candidates offered for a transaction of kind [k] are
    at most twenty stored transactions of the opposite kind, the most
    recent first: every stored transaction of the opposite kind that is
    left out is no more recent than any that is offered, and none is left
    out when there are at most twenty.  The id of a candidate is found in
    the store. *)
Theorem saved_candidates_offered :
  forall (recentTransactions : list Transaction) (k : TransactionType),
    (List.length (getSavedMergeCandidates getTime recentTransactions k) <= 20)%nat
    /\ (forall t, In t (getSavedMergeCandidates getTime recentTransactions k) ->
                  In t recentTransactions /\ type t = oppositeType k
                  /\ find (fun u => (id u =? id t)%string) recentTransactions <> None)
    /\ Sorted.StronglySorted (newer getTime)
         (getSavedMergeCandidates getTime recentTransactions k)
    /\ (forall t u,
          In t (getSavedMergeCandidates getTime recentTransactions k) ->
          In u recentTransactions -> type u = oppositeType k ->
          ~ In u (getSavedMergeCandidates getTime recentTransactions k) ->
          getTime (date t) >= getTime (date u))
    /\ ((List.length
           (filter (fun t => TransactionType_eqb (type t) (oppositeType k))
                   recentTransactions) <= 20)%nat ->
        Permutation.Permutation
          (getSavedMergeCandidates getTime recentTransactions k)
          (filter (fun t => TransactionType_eqb (type t) (oppositeType k))
                  recentTransactions)).
Proof.
  intros txs k. unfold getSavedMergeCandidates.
  set (f := filter (fun t => TransactionType_eqb (type t) (oppositeType k)) txs).
  set (s := sortByDateDesc getTime f).
  pose proof (sortByDateDesc_perm f) as P. fold s in P.
  pose proof (sortByDateDesc_sorted f) as Srt. fold s in Srt.
  assert (Hin : forall t, In t s -> In t txs /\ type t = oppositeType k).
  { intros t Ht. apply (Permutation.Permutation_in _ P) in Ht.
    apply filter_In in Ht. destruct Ht as [H1 H2].
    apply TransactionType_eqb_eq in H2. tauto. }
  assert (Hsub : forall t, In t (firstn 20 s) -> In t s).
  { intros t Ht. rewrite <- (firstn_skipn 20 s). apply in_or_app. now left. }
  split; [apply firstn_le_length|]. split; [|split; [|split]].
  - intros t Ht. destruct (Hin t (Hsub t Ht)) as [H1 H2].
    split; [exact H1|]. split; [exact H2|].
    intros N. pose proof (find_none _ _ N t H1) as F. simpl in F.
    now rewrite String.eqb_refl in F.
  - now apply sorted_firstn.
  - intros t u Ht Hu Hk Hnot.
    assert (Hus : In u s).
    { apply (Permutation.Permutation_in _ (Permutation.Permutation_sym P)).
      apply filter_In. split; [exact Hu|]. now apply TransactionType_eqb_eq. }
    rewrite <- (firstn_skipn 20 s) in Hus. apply in_app_or in Hus.
    destruct Hus as [Hus|Hus]; [contradiction|].
    exact (sorted_cut 20 s t u Srt Ht Hus).
  - intros Hlen. rewrite firstn_all2; [exact P|].
    now rewrite (Permutation.Permutation_length P).
Qed.

End SavedCandidatesFacts.

(** * The comparison groups *)

Section CompareFacts.

Variable JsDate : Type.
Variable toDateString : JsDate -> string.
Variable parseDate : string -> JsDate.

Lemma remove_group_length (i : string) (groups : list (CompareView.CompareGroup JsDate)) :
  NoDup (map CompareView.g_id groups) ->
  (List.length groups
   <= List.length (filter (fun g => negb (CompareView.g_id g =? i)%string) groups) + 1)%nat.
Proof.
  induction groups as [|a l IH]; simpl; intros ND; [lia|].
  inversion ND as [|? ? Hnotin ND']; subst.
  destruct (CompareView.g_id a =? i)%string eqn:E; simpl.
  - apply String.eqb_eq in E.
    assert (F : filter (fun g => negb (CompareView.g_id g =? i)%string) l = l);
      [|rewrite F; lia].
    apply forallb_filter_id, forallb_forall. intros g Hg.
    apply negb_true_iff, String.eqb_neq. intros Eq. apply Hnotin.
    rewrite E, <- Eq. now apply in_map.
  - specialize (IH ND'). lia.
Qed.

(** X22.  The number of comparison groups stays within its bounds.  Adding
    a group never gives more than five: at five groups the request is
    ignored, below five one group with an empty selection and a colour of
    the palette is appended.  Removing a group is ignored when only one is
    left, and with pairwise distinct ids it removes at most one group, so
    at least one always remains.  Setting the dates of the active group
    keeps the groups' ids and order, and does nothing without an active
    group. *)
Theorem group_count_bounds :
  forall (now : Z) (i : string) (groups : list (CompareView.CompareGroup JsDate)),
    ((List.length groups <= 5)%nat ->
     (List.length (CompareView.handleAddGroup now groups) <= 5)%nat)
    /\ ((5 <= List.length groups)%nat -> CompareView.handleAddGroup now groups = groups)
    /\ ((List.length groups < 5)%nat ->
        exists g, CompareView.handleAddGroup now groups = (groups ++ [g])%list
                  /\ CompareView.selectedDates g = []
                  /\ CompareView.g_id g = toString now
                  /\ In (CompareView.g_color g) CompareView.COLORS)
    /\ ((List.length groups <= 1)%nat -> CompareView.handleRemoveGroup i groups = groups)
    /\ ((1 <= List.length groups)%nat -> NoDup (map CompareView.g_id groups) ->
        (1 <= List.length (CompareView.handleRemoveGroup i groups))%nat
        /\ (List.length groups - 1
            <= List.length (CompareView.handleRemoveGroup i groups))%nat)
    /\ (forall g, In g (CompareView.handleRemoveGroup i groups) -> In g groups)
    /\ (forall dates active,
          map CompareView.g_id (fst (CompareView.handleUpdateDates dates (groups, active)))
          = map CompareView.g_id groups
          /\ (truthyOptStr active = false ->
              CompareView.handleUpdateDates dates (groups, active) = (groups, active))).
Proof.
  intros now i groups. unfold CompareView.handleAddGroup, CompareView.handleRemoveGroup.
  split; [|split; [|split; [|split; [|split; [|split]]]]];
    [| | | | | |
     intros dates active; unfold CompareView.handleUpdateDates;
     destruct active as [a|]; simpl; [|split; reflexivity];
     destruct (truthyStr a); simpl; [|split; reflexivity];
     split; [|discriminate];
     induction groups as [|g l IH]; simpl; [reflexivity|];
     rewrite IH; destruct (CompareView.g_id g =? a)%string; reflexivity].
  - intros H. destruct (5 <=? List.length groups)%nat eqn:E; [exact H|].
    apply Nat.leb_gt in E. rewrite length_app. simpl. lia.
  - intros H. apply Nat.leb_le in H. now rewrite H.
  - intros H. assert (E : (5 <=? List.length groups)%nat = false)
      by (apply Nat.leb_gt; exact H).
    rewrite E. eexists. split; [reflexivity|].
    cbn [CompareView.selectedDates CompareView.g_id CompareView.g_color].
    split; [reflexivity|]. split; [reflexivity|].
    apply nth_In. apply Nat.mod_upper_bound. discriminate.
  - intros H. apply Nat.leb_le in H. now rewrite H.
  - intros H ND. destruct (List.length groups <=? 1)%nat eqn:E.
    + apply Nat.leb_le in E. lia.
    + apply Nat.leb_gt in E. pose proof (remove_group_length i groups ND). lia.
  - intros g Hg. destruct (List.length groups <=? 1)%nat; [exact Hg|].
    apply filter_In in Hg. tauto.
Qed.

Lemma mapi_from_nth {A B : Type} (f : A -> nat -> B) (i k : nat) (l : list A) :
  nth_error (mapi_from f i l) k = option_map (fun x => f x (i + k)%nat) (nth_error l k).
Proof.
  revert i k. induction l as [|a l IH]; intros i [|k]; simpl; try reflexivity.
  - now rewrite Nat.add_0_r.
  - rewrite IH. simpl. now rewrite Nat.add_succ_r.
Qed.

(** What the loop over the transactions has accumulated, from any start:
    the amounts of the counted transactions are added to the total one after
    the other, in the order of the store. *)
Lemma tally_fold (group : CompareView.CompareGroup JsDate) (l : list Transaction)
    (a mx : Z) (c : nat) :
  exists mx',
    fold_left (CompareView.tally toDateString parseDate group) l (a, mx, c)
    = (fold_left (fun acc t => acc + amount t)
         (filter (CompareView.counted toDateString parseDate group) l) a,
       mx',
       (c + List.length (filter (CompareView.counted toDateString parseDate group) l))%nat)
    /\ mx <= mx'
    /\ (forall t, In t (filter (CompareView.counted toDateString parseDate group) l) ->
                  amount t <= mx')
    /\ (mx' = mx
        \/ exists t, In t (filter (CompareView.counted toDateString parseDate group) l)
                     /\ amount t = mx').
Proof.
  revert a mx c. induction l as [|x l IH]; intros a mx c.
  - exists mx. simpl. rewrite Nat.add_0_r.
    repeat split; [lia | contradiction | now left].
  - cbn [fold_left filter].
    assert (T : CompareView.tally toDateString parseDate group (a, mx, c) x
                = if CompareView.counted toDateString parseDate group x
                  then (a + amount x, if amount x >? mx then amount x else mx, S c)
                  else (a, mx, c)) by reflexivity.
    rewrite T. clear T.
    destruct (CompareView.counted toDateString parseDate group x) eqn:E; [|apply IH].
    destruct (IH (a + amount x) (if amount x >? mx then amount x else mx) (S c))
      as (mx' & Hf & Hle & Hall & Hatt).
    exists mx'. rewrite Hf. cbn [fold_left List.length].
    split; [f_equal; lia|].
    split; [destruct (amount x >? mx) eqn:G; lia|].
    split.
    + intros t [<-|Ht]; [destruct (amount x >? mx) eqn:G; lia | now apply Hall].
    + destruct Hatt as [->|(t & Ht & Et)].
      * destruct (amount x >? mx) eqn:G; [right; exists x; split; [now left|reflexivity]
                                         | now left].
      * right. exists t. split; [now right | exact Et].
Qed.

(** Adding amounts that are not negative never lowers the running total,
    and the total ends at least as large as each amount added. *)
Lemma running_total_bounds (l : list Transaction) (a : Z) :
  (forall t, In t l -> 0 <= amount t) -> 0 <= a ->
  a <= fold_left (fun acc t => acc + amount t) l a
  /\ forall t, In t l -> amount t <= fold_left (fun acc t => acc + amount t) l a.
Proof.
  revert a. induction l as [|x l IH]; intros a Hpos Ha; simpl.
  - split; [lia | contradiction].
  - assert (Hx : 0 <= amount x) by (apply Hpos; now left).
    destruct (IH (a + amount x)) as [H1 H2];
      [intros t Ht; apply Hpos; now right | lia |].
    split; [lia|]. intros t [<-|Ht]; [lia | now apply H2].
Qed.

(** X23.  The chart has one row per group, in the order of the groups and
    with the group's name, colour and position.  A row's amount is what the
    loop accumulates: starting from zero, the amounts of the stored
    expenses whose day is among the group's selected days, added one after
    the other in the order of the store; its count is their number.  Its
    largest transaction is at least the amount of each of them and is zero
    or the amount of one of them.  With no negative amounts in the store,
    the largest transaction is at most the row's amount. *)
Theorem chart_row_totals :
  forall (groups : list (CompareView.CompareGroup JsDate))
         (transactions : list Transaction) (k : nat) (g : CompareView.CompareGroup JsDate),
    nth_error groups k = Some g ->
    List.length (CompareView.chartData toDateString parseDate groups transactions)
    = List.length groups
    /\ exists row,
         nth_error (CompareView.chartData toDateString parseDate groups transactions) k
         = Some row
         /\ CompareView.r_name row = CompareView.g_name g
         /\ CompareView.r_color row = CompareView.g_color g
         /\ CompareView.r_index row = k
         /\ CompareView.r_amount row
            = fold_left (fun acc t => acc + amount t)
                (filter (CompareView.counted toDateString parseDate g) transactions) 0
         /\ CompareView.r_count row
            = List.length (filter (CompareView.counted toDateString parseDate g)
                             transactions)
         /\ (forall t, In t transactions ->
                       CompareView.counted toDateString parseDate g t = true ->
                       amount t <= CompareView.r_maxTransaction row)
         /\ (CompareView.r_maxTransaction row = 0
             \/ exists t, In t transactions
                          /\ CompareView.counted toDateString parseDate g t = true
                          /\ amount t = CompareView.r_maxTransaction row)
         /\ ((forall t, In t transactions -> 0 <= amount t) ->
             0 <= CompareView.r_maxTransaction row <= CompareView.r_amount row).
Proof.
  intros groups transactions k g Hk.
  unfold CompareView.chartData, mapi.
  split; [apply mapi_from_length|].
  rewrite mapi_from_nth, Hk. simpl.
  eexists. split; [reflexivity|].
  unfold CompareView.chartRow.
  destruct (tally_fold g transactions 0 0 0%nat) as (mx & Hf & Hle & Hall & Hatt).
  rewrite Hf. simpl.
  set (f := filter (CompareView.counted toDateString parseDate g) transactions) in *.
  repeat split; try reflexivity.
  - intros t Ht Hc. apply Hall. apply filter_In. tauto.
  - destruct Hatt as [->|(t & Ht & Et)]; [now left|].
    right. exists t. apply filter_In in Ht. tauto.
  - exact Hle.
  - assert (Hf0 : forall t, In t f -> 0 <= amount t).
    { intros t Ht. apply H. unfold f in Ht. apply filter_In in Ht. tauto. }
    destruct (running_total_bounds f 0 Hf0 (Z.le_refl 0)) as [B1 B2].
    destruct Hatt as [->|(t & Ht & Et)]; [exact B1|].
    rewrite <- Et. now apply B2.
Qed.

End CompareFacts.

(** * Categories added and looked up *)

Lemma find_app_none {A : Type} (p : A -> bool) (l : list A) (x : A) :
  (forall y, In y l -> p y = false) ->
  find p (l ++ [x]) = if p x then Some x else None.
Proof.
  induction l as [|a l IH]; simpl; intros H; [reflexivity|].
  rewrite (H a) by now left. apply IH. intros y Hy. apply H. now right.
Qed.

(** X24.  A category that has just been added is the one a lookup by its
    name returns, provided its name is not empty and no earlier category
    matches that name; its id is the decimal timestamp.  When an earlier
    category matches, the lookup returns that earlier category's id, as it
    did before the addition.  After the added category has been deleted
    again (its id being new), the categories are as before. *)
Theorem added_category_found :
  forall (toLowerCase : string -> string) (categories : list Category) (now : Z)
         (c : AppData.CategoryData) (k : TransactionType),
    AppData.cd_name c <> "" ->
    ((forall x, In x categories -> nameMatches toLowerCase (AppData.cd_name c) x = false) ->
     findCategoryId toLowerCase (AppData.addCategory now c categories)
       (Some (AppData.cd_name c)) k = toString now)
    /\ (forall m, find (nameMatches toLowerCase (AppData.cd_name c)) categories = Some m ->
        findCategoryId toLowerCase (AppData.addCategory now c categories)
          (Some (AppData.cd_name c)) k = c_id m
        /\ findCategoryId toLowerCase categories (Some (AppData.cd_name c)) k = c_id m)
    /\ ((forall x, In x categories -> c_id x <> toString now) ->
        AppData.deleteCategory true (toString now) (AppData.addCategory now c categories)
        = categories).
Proof.
  intros lower categories now c k Hn.
  pose proof Hn as Ht. apply truthyStr_true in Ht.
  split; [|split].
  - intros Hno. unfold findCategoryId, AppData.addCategory. rewrite Ht.
    rewrite (find_app_none _ categories _ Hno).
    unfold nameMatches at 1. simpl c_name. now rewrite includes_refl.
  - intros m Hm. unfold findCategoryId, AppData.addCategory. rewrite Ht, Hm.
    split; [|reflexivity].
    assert (E : find (nameMatches lower (AppData.cd_name c))
                  (categories
                   ++ [mkCategory (toString now) (AppData.cd_name c) (AppData.cd_icon c)
                         (AppData.cd_color c) (AppData.cd_type c)])%list = Some m).
    { clear Ht. induction categories as [|a l IH]; simpl in *; [discriminate|].
      destruct (nameMatches lower (AppData.cd_name c) a); [exact Hm | now apply IH]. }
    now rewrite E.
  - intros Hfresh. unfold AppData.deleteCategory, AppData.addCategory.
    rewrite filter_app. simpl. rewrite String.eqb_refl. simpl. rewrite app_nil_r.
    apply forallb_filter_id, forallb_forall. intros x Hx.
    apply negb_true_iff, String.eqb_neq. now apply Hfresh.
Qed.

(** * The further theorems at concrete inputs *)

Ltac distinct_ids :=
  simpl; repeat (constructor; [simpl; intuition discriminate|]); constructor.

Ltac positive_amounts :=
  let t := fresh "t" in let H := fresh "H" in
  intros t H; simpl in H;
  repeat (destruct H as [H|H]; [subst t; simpl; lia|]); contradiction.

Lemma plain_add_appends_witness :
  exists news,
    App.addTransaction [Sample.salary] 1700000000000 [Sample.dinner; Sample.snack]
      (Some "t1")
    = ([Sample.salary] ++ news)%list
    /\ map dataOf news = [Sample.dinner; Sample.snack]
    /\ map id news
       = map (fun k => toString (1700000000000 + Z.of_nat k)) (seq 0 2)
    /\ NoDup (map id news).
Proof.
  apply (plain_add_appends [Sample.salary] 1700000000000 [Sample.dinner; Sample.snack]
           (Some "t1")).
  left. simpl. discriminate.
Defined.

Lemma merge_into_absent_target_witness :
  App.addTransaction [Sample.salary] 1700000000000 [Sample.dinner] (Some "gone")
  = [Sample.salary].
Proof.
  apply (merge_into_absent_target [Sample.salary] 1700000000000 Sample.dinner "gone").
  - discriminate.
  - intros t H. simpl in H. destruct H as [<-|[]]. simpl. discriminate.
  - positive_amounts.
Defined.

Lemma merge_commit_cases_witness :
  App.addTransaction ([Sample.salary] ++ Sample.rent :: []) 1700000000000
    [Sample.snack] (Some (id Sample.rent))
  = ([Sample.salary] ++ App.updateTarget (id Sample.rent) Sample.snack Sample.rent :: [])%list
  /\ amount (App.updateTarget (id Sample.rent) Sample.snack Sample.rent) = 870.
Proof.
  destruct (merge_commit_cases [Sample.salary] [] Sample.rent 1700000000000 Sample.snack)
    as ((H1 & _ & H3 & _) & _).
  - distinct_ids.
  - positive_amounts.
  - simpl. discriminate.
  - simpl. lia.
  - split; [exact H1 | exact H3].
Defined.

Lemma offset_keeps_balance_witness :
  balance (App.addTransaction ([] ++ Sample.salary :: [Sample.rent]) 1700000000000
             [Sample.dinner] (Some (id Sample.salary)))
  = balance (App.addTransaction ([] ++ Sample.salary :: [Sample.rent]) 1700000000000
               [Sample.dinner] None).
Proof.
  apply (offset_keeps_balance [] [Sample.rent] Sample.salary 1700000000000 Sample.dinner).
  - distinct_ids.
  - positive_amounts.
  - simpl. discriminate.
  - simpl. discriminate.
  - unfold safeInteger. simpl. lia.
  - unfold safeInteger. simpl. lia.
  - unfold safeInteger. simpl. lia.
Defined.

Lemma confirm_delete_removes_witness :
  AppData.transactions
    (AppData.confirmDelete
       (AppData.requestDeleteTransaction "t1"
          (AppData.mkDeleteState [Sample.salary; Sample.rent] None)))
  = filter (fun t => negb (id t =? "t1")%string) [Sample.salary; Sample.rent].
Proof.
  apply (confirm_delete_removes
           (AppData.mkDeleteState [Sample.salary; Sample.rent] None) "t1").
  discriminate.
Defined.

Lemma delete_undoes_add_witness :
  AppData.transactions
    (AppData.confirmDelete
       (AppData.requestDeleteTransaction (toString 1700000000000)
          (AppData.mkDeleteState
             (App.addTransaction [Sample.salary] 1700000000000 [Sample.dinner] None)
             None)))
  = [Sample.salary].
Proof.
  apply (delete_undoes_add [Sample.salary] 1700000000000 Sample.dinner).
  intros t H. simpl in H. destruct H as [<-|[]]. vm_compute. discriminate.
Defined.

Lemma findCategoryId_by_name_witness :
  exists m,
    find (nameMatches Fixture.sameCase "Salary") DEFAULT_CATEGORIES = Some m
    /\ In m DEFAULT_CATEGORIES
    /\ (forall k', findCategoryId Fixture.sameCase DEFAULT_CATEGORIES
                     (Some "Salary") k' = c_id m)
    /\ findCategoryId Fixture.sameCase DEFAULT_CATEGORIES (Some "Salary") expense
       = c_id m.
Proof.
  apply (findCategoryId_by_name Fixture.sameCase DEFAULT_CATEGORIES
           (mkCategory "7" "Salary" "Banknote" "#22c55e" income) expense).
  - simpl. tauto.
  - simpl. discriminate.
Defined.

Lemma merge_conserves_total_witness :
  totalAmount (batchList (handleSelectBatchMergeTarget (tempId Sample.taxi) true Sample.pair))
  = totalAmount (batchList Sample.pair)
  /\ netAmount (batchList (handleSelectBatchMergeTarget (tempId Sample.taxi) true Sample.pair))
     = netAmount (batchList Sample.pair).
Proof.
  apply (merge_conserves_total Sample.pair Sample.lunch Sample.taxi [Sample.lunch] []).
  - reflexivity.
  - exact sample_pair_nodup.
  - simpl. now left.
  - simpl. discriminate.
  - simpl. discriminate.
  - reflexivity.
  - reflexivity.
  - unfold safeInteger. simpl. lia.
  - unfold safeInteger. simpl. lia.
  - unfold safeInteger. simpl. lia.
Defined.

Lemma offset_net_amount_witness :
  netAmount (batchList (handleSelectBatchMergeTarget (tempId Sample.taxi) true
                          Sample.opposite))
  = netAmount (batchList Sample.opposite)
    + signed (b_type Sample.taxi) (b_amount Sample.refund - b_amount Sample.taxi).
Proof.
  destruct (offset_net_amount Sample.opposite Sample.refund Sample.taxi
              [Sample.refund] []) as [_ H].
  - reflexivity.
  - exact sample_opposite_nodup.
  - simpl. now left.
  - simpl. discriminate.
  - simpl. discriminate.
  - reflexivity.
  - simpl. discriminate.
  - unfold safeInteger. simpl. lia.
  - unfold safeInteger. simpl. lia.
  - unfold safeInteger. simpl. lia.
  - apply H. simpl. lia.
Defined.

Lemma ids_stay_unique_witness :
  NoDup (map tempId (batchList Sample.pair))
  /\ NoDup (map tempId (batchList (run (OpSelectTarget "b" true) Sample.pair))).
Proof.
  split; [exact sample_pair_nodup|].
  apply (ids_stay_unique (OpSelectTarget "b" true) Sample.pair);
    [reflexivity | exact sample_pair_nodup].
Defined.

Lemma split_after_two_merges_witness :
  batchList
    (handleSplitBatchItem (tempId Sample.taxi)
       (handleSelectBatchMergeTarget (tempId Sample.taxi) true
          (handleOpenBatchMerge (tempId Sample.tea)
             (handleSelectBatchMergeTarget (tempId Sample.taxi) true
                (handleOpenBatchMerge (tempId Sample.lunch) Sample.trio)))))
  = (filter (notId (tempId Sample.tea)) (filter (notId (tempId Sample.lunch)) [Sample.lunch])
     ++ Sample.taxi :: Sample.lunch :: Sample.tea
     :: filter (notId (tempId Sample.tea))
          (filter (notId (tempId Sample.lunch)) [Sample.tea]))%list.
Proof.
  apply (split_after_two_merges Sample.trio Sample.lunch Sample.tea Sample.taxi
           [Sample.lunch] [Sample.tea]).
  - reflexivity.
  - distinct_ids.
  - simpl. tauto.
  - simpl. tauto.
  - simpl. discriminate.
  - simpl. discriminate.
  - simpl. discriminate.
  - simpl. discriminate.
  - simpl. discriminate.
  - reflexivity.
  - reflexivity.
  - reflexivity.
Defined.

Lemma split_without_children_witness :
  batchList (handleSplitBatchItem "a" Sample.pair) = batchList Sample.pair
  /\ toast (handleSplitBatchItem "a" Sample.pair) = Some ("已拆分/撤销合并", success).
Proof.
  apply (split_without_children Sample.pair "a").
  right. exists Sample.lunch. split; reflexivity.
Defined.

Lemma split_discards_edit_witness :
  batchList (handleSplitBatchItem (tempId Sample.taxiWithLunch)
               (handleUpdateBatchItem (tempId Sample.taxiWithLunch) (SetAmount 999)
                  (handleSelectBatchMergeTarget "b" true Sample.pair)))
  = batchList (handleSplitBatchItem (tempId Sample.taxiWithLunch)
                 (handleSelectBatchMergeTarget "b" true Sample.pair)).
Proof.
  apply (split_discards_edit (handleSelectBatchMergeTarget "b" true Sample.pair)
           Sample.taxiWithLunch [] [] 999 "edited").
  - reflexivity.
  - intros x [].
  - reflexivity.
  - reflexivity.
Defined.

Lemma saved_target_reaches_save_witness :
  out_saves (handleSaveSingleBatchItem "a"
               (handleSelectBatchMergeTarget "t1" false Sample.alone))
  = [([rest Sample.lunch], Some "t1")].
Proof.
  apply (saved_target_reaches_save Sample.alone "a" "t1" Sample.lunch income).
  - reflexivity.
  - reflexivity.
  - discriminate.
  - simpl. lia.
Defined.

Lemma staged_offset_end_to_end_witness :
  storeAfter ([Sample.salary] ++ Sample.rent :: []) Sample.clock
    (out_saves (handleSaveSingleBatchItem "a"
                  (handleSelectBatchMergeTarget (id Sample.rent) false Sample.alone)))
  = ([Sample.salary]
     ++ App.updateTarget (id Sample.rent) (rest Sample.lunch) Sample.rent :: [])%list.
Proof.
  apply (staged_offset_end_to_end Sample.alone "a" Sample.lunch [Sample.salary] []
           Sample.rent Sample.clock).
  - reflexivity.
  - reflexivity.
  - discriminate.
  - distinct_ids.
  - positive_amounts.
  - simpl. discriminate.
  - simpl. lia.
Defined.

Lemma single_save_once_witness :
  out_saves (handleSaveSingleBatchItem "a" Sample.pair)
  = [([rest Sample.lunch], mergeTargetId Sample.lunch)]
  /\ handleSaveSingleBatchItem "a" (out_state (handleSaveSingleBatchItem "a" Sample.pair))
     = mkOut (out_state (handleSaveSingleBatchItem "a" Sample.pair)) [] false.
Proof.
  destruct (single_save_once Sample.pair "a" Sample.lunch) as (H1 & _ & H3).
  - reflexivity.
  - simpl. lia.
  - split; [exact H1 | exact H3].
Defined.

Lemma chart_row_totals_witness :
  exists row,
    nth_error
      (CompareView.chartData Fixture.isoDay Fixture.isoDate
         [CompareView.mkGroup "1" "组别 A" ["2024-01-03T00:00:00.000Z"] "#10b981"]
         [Sample.salary; Sample.rent; Sample.gift]) 0
    = Some row
    /\ CompareView.r_amount row = 1000
    /\ CompareView.r_count row = 2%nat
    /\ CompareView.r_maxTransaction row = 900.
Proof.
  destruct (chart_row_totals string Fixture.isoDay Fixture.isoDate
              [CompareView.mkGroup "1" "组别 A" ["2024-01-03T00:00:00.000Z"] "#10b981"]
              [Sample.salary; Sample.rent; Sample.gift] 0%nat
              (CompareView.mkGroup "1" "组别 A" ["2024-01-03T00:00:00.000Z"] "#10b981")
              eq_refl)
    as (_ & row & Hn & _ & _ & _ & Ha & Hc & Hall & Hatt & _).
  exists row. split; [exact Hn|].
  split; [rewrite Ha; reflexivity|].
  split; [rewrite Hc; reflexivity|].
  assert (L : amount Sample.rent <= CompareView.r_maxTransaction row).
  { apply Hall; [simpl; tauto | reflexivity]. }
  simpl in L.
  destruct Hatt as [E|(t & Ht & Hct & Et)]; [lia|].
  simpl in Ht. destruct Ht as [<-|[<-|[<-|[]]]].
  - discriminate Hct.
  - symmetry. exact Et.
  - simpl in Et. lia.
Defined.

Lemma added_category_found_witness :
  findCategoryId Fixture.sameCase
    (AppData.addCategory 1700000000000
       (AppData.mkCategoryData "Pets" "Dog" "#000000" expense) DEFAULT_CATEGORIES)
    (Some "Pets") income
  = toString 1700000000000.
Proof.
  apply (added_category_found Fixture.sameCase DEFAULT_CATEGORIES 1700000000000
           (AppData.mkCategoryData "Pets" "Dog" "#000000" expense) income).
  - simpl. discriminate.
  - intros x H. simpl in H.
    repeat (destruct H as [H|H]; [subst x; reflexivity|]). contradiction.
Defined.
